(** * dicomweb-proxy: the WADO-RS retrieval pipeline ([src/dimse/wadoRs.ts])

    A shallow embedding of [convertToJpeg], [addFileToBuffer] and [doWadoRs].
    The functions are asynchronous and effectful: they read the storage
    directory, start the DCMTK converter, call the transcoder, the metadata
    query and the fetch orchestrator.  The embedding threads an explicit
    world (the file system and the trace of collaborator calls) through a
    small state-and-exception monad; the collaborators that live outside
    [wadoRs.ts] are the fields of one record, [Collaborators]. *)

From Stdlib Require Import Strings.Byte.
From stdpp Require Import gmap strings list fin_maps.

Set Default Proof Using "Type".

(** ** Data model *)

(** A Node [Buffer] is a sequence of bytes; [Buffer.from(str)] is the UTF-8
    encoding of [str], and a Rocq [string] already is a sequence of bytes. *)
Definition Buffer := list byte.

Definition Buffer_from (s : string) : Buffer := String.list_byte_of_string s.

(** [const term = '\r\n'] *)
Definition term : string :=
  String (Ascii.ascii_of_nat 13) (String (Ascii.ascii_of_nat 10) EmptyString).

(** [type DataFormat = 'pixelData' | 'bulkData' | 'rendered' | 'thumbnail'] *)
Inductive DataFormat := pixelData | bulkData | rendered | thumbnail.

(** The members of [QUERY_LEVEL] (from [./querLevel]) that [wadoRs.ts] names. *)
Inductive QUERY_LEVEL := STUDY | SERIES | IMAGE.

(** [type WadoRsArgs]; an optional property is an [option]. *)
Record WadoRsArgs := {
  studyInstanceUid : string;
  seriesInstanceUid : option string;
  sopInstanceUid : option string;
  dataFormat : option DataFormat;
  frame : option (list Z)
}.

(** [type WadoRsResponse] *)
Record WadoRsResponse := {
  contentType : string;
  buffer : Buffer
}.

(** [type QidoResponse = { [key: string]: { Value: string[], vr: string } }] *)
Record QidoAttribute := {
  Value : list string;
  vr : string
}.

Definition QidoResponse := gmap string QidoAttribute.

(** What [wadoRs.ts] reads of a [dicomParser] data set: the element table
    (an element has a [dataOffset] and a [length]) and the bytes of
    [dataset.byteArray.buffer]. *)
Module Element.
Record t := {
  dataOffset : nat;
  length : nat
}.
End Element.

Record DataSet := {
  elements : gmap string Element.t;
  byteArray_buffer : Buffer
}.

(** JavaScript exceptions: the ones the runtime raises on [undefined] and on
    out-of-range views, [new Error(message)], and whatever a collaborator
    or the file system rejects with. *)
Inductive exn :=
| TypeError (message : string)
| RangeError (message : string)
| Error (message : string)
| SystemError (code : string) (path : string)
| Rejected (by_whom : string) (what : string).

(** ** The world: storage and the calls that leave the process *)

Inductive node :=
| File (content : Buffer)
| Directory (entries : list string).

Inductive event :=
| Find (level : QUERY_LEVEL) (StudyInstanceUID SeriesInstanceUID SOPInstanceUID : string)
| Fetch (studyUid seriesUid instanceUid : string) (level : QUERY_LEVEL)
| Compress (filepath pathname : string) (transferSyntax : option string)
| Exec (file : string) (args : list string)
| LogInfo (message : string)
| LogError (message : list string).

Record World := {
  files : gmap string node;
  trace : list event
}.

(** ** The monad of asynchronous code: state and exceptions *)

Inductive result (A : Type) :=
| Ok (a : A)
| Throw (e : exn).

Arguments Ok {A} a.
Arguments Throw {A} e.

Definition M (A : Type) : Type := World -> result A * World.

Definition ret {A} (a : A) : M A := fun w => (Ok a, w).

Definition throw {A} (e : exn) : M A := fun w => (Throw e, w).

Definition bind {A B} (m : M A) (k : A -> M B) : M B :=
  fun w =>
    match m w with
    | (Ok a, w') => k a w'
    | (Throw e, w') => (Throw e, w')
    end.

(** [try { body } catch (e) { handler }] *)
Definition try_catch {A} (body : M A) (handler : exn -> M A) : M A :=
  fun w =>
    match body w with
    | (Ok a, w') => (Ok a, w')
    | (Throw e, w') => handler e w'
    end.

Declare Scope js_scope.
Delimit Scope js_scope with js.
Notation "x <- c1 ;; c2" := (bind c1 (fun x => c2))
  (at level 100, c1 at next level, right associativity) : js_scope.
Notation "c1 ;;; c2" := (bind c1 (fun _ => c2))
  (at level 100, right associativity) : js_scope.
Open Scope js_scope.

(** A call that leaves the process is written to the trace. *)
Definition emit (e : event) : M unit :=
  fun w => (Ok tt, {| files := files w; trace := trace w ++ [e] |}).

(** A collaborator acts on the storage only. *)
Definition on_files {A}
    (f : gmap string node -> result A * gmap string node) : M A :=
  fun w => let '(r, fs) := f (files w) in (r, {| files := fs; trace := trace w |}).

Definition of_result {A} (r : result A) : M A := fun w => (r, w).

(** Modelled from the spec: [fileExists] of [../utils/fileHelper], which is
    not among the sources; an existence check is a pure boolean and cannot
    fail. *)
Definition present (fs : gmap string node) (pathname : string) : bool :=
  match fs !! pathname with
  | Some _ => true
  | None => false
  end.

Definition fileExists (pathname : string) : M bool :=
  fun w => (Ok (present (files w) pathname), w).

(** [(await fs.stat(pathname)).isDirectory()] *)
Definition fs_stat_isDirectory (pathname : string) : M bool :=
  fun w =>
    match files w !! pathname with
    | Some (Directory _) => (Ok true, w)
    | Some (File _) => (Ok false, w)
    | None => (Throw (SystemError "ENOENT" pathname), w)
    end.

(** [fs.readFile(pathname)] *)
Definition fs_readFile (pathname : string) : M Buffer :=
  fun w =>
    match files w !! pathname with
    | Some (File content) => (Ok content, w)
    | Some (Directory _) => (Throw (SystemError "EISDIR" pathname), w)
    | None => (Throw (SystemError "ENOENT" pathname), w)
    end.

(** [fs.readdir(pathname)] *)
Definition fs_readdir (pathname : string) : M (list string) :=
  fun w =>
    match files w !! pathname with
    | Some (Directory entries) => (Ok entries, w)
    | Some (File _) => (Throw (SystemError "ENOTDIR" pathname), w)
    | None => (Throw (SystemError "ENOENT" pathname), w)
    end.

(** [Buffer.from(arrayBuffer, byteOffset, length)]: a view of [length] bytes
    at [byteOffset]; out of the bounds of [arrayBuffer] it raises. *)
Definition Buffer_from_arrayBuffer (arrayBuffer : Buffer) (byteOffset len : nat)
    : result Buffer :=
  if Nat.ltb (List.length arrayBuffer) byteOffset
  then Throw (RangeError "offset is outside of buffer bounds")
  else if Nat.ltb (List.length arrayBuffer - byteOffset) len
  then Throw (RangeError "length is outside of buffer bounds")
  else Ok (take len (drop byteOffset arrayBuffer)).

(** [Buffer.concat(list)]: raises on a member that is no buffer. *)
Fixpoint Buffer_concat (list : list (option Buffer)) : result Buffer :=
  match list with
  | [] => Ok []
  | None :: _ => Throw (TypeError "list argument must be an instance of Buffer or Uint8Array")
  | Some b :: rest =>
      match Buffer_concat rest with
      | Ok bs => Ok (b ++ bs)
      | Throw e => Throw e
      end
  end.

(** ** Collaborators outside [wadoRs.ts] *)

Record Collaborators := {
  (** [path.join] of Node, on two strings *)
  path_join : string -> string -> string;
  (** [config.get(ConfParams.STORAGE_PATH)], [MIMETYPE], [XTRANSFER] *)
  STORAGE_PATH : string;
  MIMETYPE : string;
  XTRANSFER : string;
  (** the answer of the metadata query after the merge:
      [deepmerge.all(await doFind(level, filters), { arrayMerge: combineMerge })] *)
  metadata_query : QUERY_LEVEL -> string -> string -> string ->
                   result (list QidoResponse);
  (** the fetch orchestrator behind [waitOrFetchData] *)
  fetch_orchestrator : string -> string -> string -> QUERY_LEVEL ->
                       gmap string node -> result unit * gmap string node;
  (** the transcoder behind [compressFile] *)
  transcoder : string -> string -> option string ->
               gmap string node -> result unit * gmap string node;
  (** the child process behind [execFile] *)
  child_process : string -> list string ->
                  gmap string node -> result unit * gmap string node;
  (** [dicomParser.parseDicom] *)
  dicomParser : Buffer -> result DataSet;
  (** the order in which the runtime completes the operations that the
      concurrently pending transforms of a directory listing wait for:
      each number names the transform (its position in the listing) whose
      awaited operation completes next *)
  completion_order : list string -> list nat
}.

(** ** JavaScript values *)

(** Truthiness of an optional string: [undefined] and [''] are falsy. *)
Definition truthy (s : option string) : bool :=
  match s with
  | Some (String _ _) => true
  | _ => false
  end.

(** [s ?? ''] *)
Definition or_empty (s : option string) : string := default EmptyString s.

(** ** Asynchronous functions that run concurrently

    A call of an [async] function runs the body up to its first [await] and
    returns a promise.  A promise is settled, or it is pending on an
    operation of the runtime; when that operation completes, the body is
    resumed and runs up to its next [await].  An operation that a
    collaborator or the file system carries out acts on the world when it
    completes. *)
#[warnings="-register-all"]
Inductive Task (A : Type) : Type :=
| Settled (r : result A)
| Pending (resume : World -> Task A * World).

Arguments Settled {A} r.
Arguments Pending {A} resume.

(** Induction on a task: what holds of the settled tasks, and of a pending
    task whenever it holds of every task it can resume to, holds of every
    task. *)
Fixpoint Task_induction {A} (P : Task A -> Prop)
    (HS : forall r, P (Settled r))
    (HP : forall resume, (forall w, P (fst (resume w))) -> P (Pending resume))
    (t : Task A) : P t :=
  match t with
  | Settled r => HS r
  | Pending resume => HP resume (fun w => Task_induction P HS HP (fst (resume w)))
  end.

(** An [async] function about to be called. *)
Definition Async (A : Type) : Type := World -> Task A * World.

(** Code that runs without waiting. *)
Definition now {A} (m : M A) : Async A :=
  fun w => let (r, w') := m w in (Settled r, w').

(** [await] of an operation that completes later. *)
Definition later {A} (m : M A) : Async A :=
  fun w => (Pending (now m), w).

(** What runs when a task has settled. *)
Fixpoint and_then {A B} (t : Task A) (k : result A -> Async B) : Async B :=
  match t with
  | Settled r => k r
  | Pending resume =>
      fun w => (Pending (fun w1 => let (t', w1') := resume w1 in and_then t' k w1'), w)
  end.

Definition abind {A B} (a : Async A) (k : A -> Async B) : Async B :=
  fun w =>
    let (t, w') := a w in
    and_then t (fun r => match r with
                         | Ok x => k x
                         | Throw e => now (throw e)
                         end) w'.

Definition atry_catch {A} (body : Async A) (handler : exn -> Async A) : Async A :=
  fun w =>
    let (t, w') := body w in
    and_then t (fun r => match r with
                         | Ok x => now (ret x)
                         | Throw e => handler e
                         end) w'.

Declare Scope async_scope.
Delimit Scope async_scope with async.
Notation "x <- c1 ;; c2" := (abind c1 (fun x => c2))
  (at level 100, c1 at next level, right associativity) : async_scope.
Notation "c1 ;;; c2" := (abind c1 (fun _ => c2))
  (at level 100, right associativity) : async_scope.

(** A task with nothing else going on: every operation it waits for
    completes at once. *)
Fixpoint complete {A} (t : Task A) (w : World) : result A * World :=
  match t with
  | Settled r => (r, w)
  | Pending resume => let (t', w') := resume w in complete t' w'
  end.

(** [await] of a call, with nothing else going on. *)
Definition run {A} (a : Async A) : M A :=
  fun w => let (t, w') := a w in complete t w'.

(** [await m], then the rest of the function with what [m] settled with. *)
Definition settle_then {A B} (m : M A) (k : result A -> M B) : M B :=
  fun w => let (r, w') := m w in k r w'.

(** ** [Promise.all] over concurrently pending tasks *)

(** [tasks.map(task => task())]: the calls, in the order of the array. *)
Fixpoint start_all {A} (tasks : list (Async A)) (w : World) : list (Task A) * World :=
  match tasks with
  | [] => ([], w)
  | task :: tasks' =>
      let (t, w1) := task w in
      let (ts, w2) := start_all tasks' w1 in
      (t :: ts, w2)
  end.

Definition fulfilled {A} (t : Task A) : option A :=
  match t with
  | Settled (Ok a) => Some a
  | _ => None
  end.

Definition rejected {A} (t : Task A) : option exn :=
  match t with
  | Settled (Throw e) => Some e
  | _ => None
  end.

(** What [Promise.all] has settled with, if it has: the rejection of a
    task (the first one by position, should the calls have left more than
    one), or the values of all the tasks by position. *)
Definition settlement {A} (pool : list (Task A)) : option (result (list A)) :=
  match omap rejected pool with
  | e :: _ => Some (Throw e)
  | [] => Ok <$> mapM fulfilled pool
  end.

Definition has_settled {A} (pool : list (Task A)) : bool :=
  match settlement pool with
  | Some _ => true
  | None => false
  end.

(** The operation that the task at position [i] waits for completes. *)
Definition resume_at {A} (i : nat) (pool : list (Task A)) (w : World)
    : list (Task A) * World :=
  match pool !! i with
  | Some (Pending resume) => let (t, w') := resume w in (<[i := t]> pool, w')
  | _ => (pool, w)
  end.

(** The operations complete in the order of the schedule, until [halt]
    holds of the tasks or the schedule ends. *)
Fixpoint follow {A} (halt : list (Task A) -> bool) (schedule : list nat)
    (pool : list (Task A)) (w : World) : list nat * list (Task A) * World :=
  if halt pool then (schedule, pool, w)
  else
    match schedule with
    | [] => ([], pool, w)
    | i :: schedule' =>
        let (pool', w') := resume_at i pool w in
        follow halt schedule' pool' w'
    end.

(** The task [t] at position [i] runs until it has settled or [halt]
    holds of the tasks. *)
Fixpoint finish_one {A} (halt : list (Task A) -> bool) (i : nat) (t : Task A)
    (pool : list (Task A)) (w : World) : list (Task A) * World :=
  if halt pool then (pool, w)
  else
    match t with
    | Settled _ => (pool, w)
    | Pending resume =>
        let (t', w') := resume w in
        finish_one halt i t' (<[i := t']> pool) w'
    end.

(** A schedule that ends early is continued by the tasks in the order of
    their positions. *)
Fixpoint finish {A} (halt : list (Task A) -> bool) (positions : list nat)
    (pool : list (Task A)) (w : World) : list (Task A) * World :=
  match positions with
  | [] => (pool, w)
  | i :: positions' =>
      match pool !! i with
      | Some t =>
          let (pool', w') := finish_one halt i t pool w in
          finish halt positions' pool' w'
      | None => finish halt positions' pool w
      end
  end.

(** [Promise.all(tasks)] up to its settlement.  The tasks are called in the
    order of the array; the operations they wait for complete in the order
    of the schedule until [Promise.all] has settled.  What is left of the
    schedule and the tasks as they are then are returned with the world. *)
Definition race {A} (schedule : list nat) (tasks : list (Async A)) (w : World)
    : list nat * list (Task A) * World :=
  let (pool0, w0) := start_all tasks w in
  let '(schedule', pool1, w1) := follow has_settled schedule pool0 w0 in
  let (pool2, w2) := finish has_settled (seq 0 (List.length tasks)) pool1 w1 in
  (schedule', pool2, w2).

(** The tasks that are pending when [Promise.all] has settled are not
    cancelled: they run on until each has settled. *)
Definition run_on {A} (schedule : list nat) (pool : list (Task A)) (w : World) : World :=
  let '(_, pool', w') := follow (fun _ => false) schedule pool w in
  snd (finish (fun _ => false) (seq 0 (List.length pool)) pool' w').

(** [await Promise.all(tasks)] and the rest [k] of the awaiting function:
    it goes on with the settlement as soon as [Promise.all] has settled,
    before the tasks that are still pending then run on.  A race has always
    settled when its tasks have run (lemma [race_settles]), so that the
    last case does not occur. *)
Definition await_all {A B} (schedule : list nat) (tasks : list (Async A))
    (k : result (list A) -> M B) : M B :=
  fun w =>
    let '(rest, pool, w1) := race schedule tasks w in
    match settlement pool with
    | Some r => let (b, w2) := k r w1 in (b, run_on rest pool w2)
    | None => (Throw (Error "a promise is still pending"), w1)
    end.

(** [await Promise.all(tasks)] with nothing after it. *)
Definition Promise_all {A} (schedule : list nat) (tasks : list (Async A))
    : M (list A) :=
  await_all schedule tasks of_result.

(** ** The program *)

Section Program.

Context (env : Collaborators).

(** *** The collaborators as [wadoRs.ts] calls them *)

Definition doFind (level : QUERY_LEVEL) (study series sop : string)
    : M (list QidoResponse) :=
  emit (Find level study series sop) ;;;
  of_result (metadata_query env level study series sop).

Definition waitOrFetchData (study series sop : string) (level : QUERY_LEVEL)
    : M unit :=
  emit (Fetch study series sop level) ;;;
  on_files (fetch_orchestrator env study series sop level).

Definition compressFile (filepath pathname : string)
    (transferSyntax : option string) : M unit :=
  emit (Compress filepath pathname transferSyntax) ;;;
  on_files (transcoder env filepath pathname transferSyntax).

Definition execFile (file : string) (args : list string) : M unit :=
  emit (Exec file args) ;;;
  on_files (child_process env file args).

Definition parseDicom (data : Buffer) : M DataSet :=
  of_result (dicomParser env data).

Definition logger_info (message : string) : M unit := emit (LogInfo message).

Definition logger_error (message : list string) : M unit := emit (LogError message).

(** *** [convertToJpeg] (lines 49-79) *)

Definition convertToJpeg (filepath : string) (asThumbnail : bool)
    : M (option Buffer) :=
  let quality := if asThumbnail then "10" else "100" in
  try_catch
    (execFile "dcmj2pnm" ["+oj"; "+Jq"; quality; filepath; filepath +:+ ".jpg"])
    (fun e =>
       (* Try again but with all frames - if this fails don't catch the error *)
       execFile "dcmj2pnm" ["+oj"; "+Jq"; quality; "+Fa"; filepath; filepath]) ;;;
  exists_ <- fileExists (filepath +:+ ".jpg") ;;
  found <-
    (if exists_ : bool then ret (true, Some (filepath +:+ ".jpg"))
     else
       exists_0 <- fileExists (filepath +:+ ".0.jpg") ;;
       ret (exists_0, if exists_0 : bool then Some (filepath +:+ ".0.jpg") else None)) ;;
  match found with
  | (true, Some filePath) =>
      if truthy (Some filePath)
      then data <- fs_readFile filePath ;; ret (Some data)
      else ret None
  | _ => ret None
  end.

(** *** [addFileToBuffer] (lines 89-136) *)

Definition addFileToBuffer (pathname filename : string)
    (dataFormat : option DataFormat) : M Buffer :=
  let filepath := path_join env pathname filename in
  (* If there is a data format, use default compression *)
  let transferSyntax :=
    match dataFormat with
    | Some _ => Some "1.2.840.10008.1.2"
    | None => None
    end in
  (* Compress the file *)
  try_catch
    (compressFile filepath pathname transferSyntax)
    (fun e => logger_error ["Failed to compress"; filepath]) ;;;
  data <- fs_readFile filepath ;;
  part <-
    match dataFormat with
    | Some bulkData | Some pixelData =>
        dataset <- parseDicom data ;;
        match elements dataset !! "x7fe00010" with
        | None => throw (TypeError "Cannot read properties of undefined (reading 'dataOffset')")
        | Some pixelDataElement =>
            returnData <- of_result
              (Buffer_from_arrayBuffer (byteArray_buffer dataset)
                 (Element.dataOffset pixelDataElement)
                 (Element.length pixelDataElement)) ;;
            ret (Buffer_from ("Content-Type:application/octet-stream;" +:+ term),
                 Some returnData)
        end
    | Some rendered =>
        returnData <- convertToJpeg filepath false ;;
        ret (Buffer_from ("Content-Type:image/jpeg;" +:+ term), returnData)
    | _ =>
        ret (Buffer_from ("Content-Type:" +:+ MIMETYPE env +:+ ";transfer-syntax:"
                            +:+ XTRANSFER env +:+ term),
             Some data)
    end ;;
  of_result
    (Buffer_concat [Some (fst part); Some (Buffer_from term); snd part;
                    Some (Buffer_from term)]).

(** *** The transforms of a directory listing

    In the directory branch of [doWadoRs] the calls of [addFileToBuffer]
    are pending together.  These are [convertToJpeg] (lines 49-79) and
    [addFileToBuffer] (lines 89-136) again, with their [await]s marked: a
    call of a collaborator is made at once and completes later.  With
    nothing else going on they are the functions above (lemmas
    [run_convertToJpeg_async] and [run_addFileToBuffer_async]). *)

Definition compressFile_async (filepath pathname : string)
    (transferSyntax : option string) : Async unit :=
  (now (emit (Compress filepath pathname transferSyntax)) ;;;
   later (on_files (transcoder env filepath pathname transferSyntax)))%async.

Definition execFile_async (file : string) (args : list string) : Async unit :=
  (now (emit (Exec file args)) ;;;
   later (on_files (child_process env file args)))%async.

Definition convertToJpeg_async (filepath : string) (asThumbnail : bool)
    : Async (option Buffer) :=
  let quality := if asThumbnail then "10" else "100" in
  (atry_catch
     (execFile_async "dcmj2pnm" ["+oj"; "+Jq"; quality; filepath; filepath +:+ ".jpg"])
     (fun e =>
        execFile_async "dcmj2pnm" ["+oj"; "+Jq"; quality; "+Fa"; filepath; filepath]) ;;;
   exists_ <- later (fileExists (filepath +:+ ".jpg")) ;;
   found <-
     (if exists_ : bool then now (ret (true, Some (filepath +:+ ".jpg")))
      else
        exists_0 <- later (fileExists (filepath +:+ ".0.jpg")) ;;
        now (ret (exists_0,
                  if exists_0 : bool then Some (filepath +:+ ".0.jpg") else None))) ;;
   match found with
   | (true, Some filePath) =>
       if truthy (Some filePath)
       then data <- later (fs_readFile filePath) ;; now (ret (Some data))
       else now (ret None)
   | _ => now (ret None)
   end)%async.

Definition addFileToBuffer_async (pathname filename : string)
    (dataFormat : option DataFormat) : Async Buffer :=
  let filepath := path_join env pathname filename in
  let transferSyntax :=
    match dataFormat with
    | Some _ => Some "1.2.840.10008.1.2"
    | None => None
    end in
  (atry_catch
     (compressFile_async filepath pathname transferSyntax)
     (fun e => now (logger_error ["Failed to compress"; filepath])) ;;;
   data <- later (fs_readFile filepath) ;;
   part <-
     match dataFormat with
     | Some bulkData | Some pixelData =>
         dataset <- now (parseDicom data) ;;
         match elements dataset !! "x7fe00010" with
         | None => now (throw (TypeError "Cannot read properties of undefined (reading 'dataOffset')"))
         | Some pixelDataElement =>
             returnData <- now (of_result
               (Buffer_from_arrayBuffer (byteArray_buffer dataset)
                  (Element.dataOffset pixelDataElement)
                  (Element.length pixelDataElement))) ;;
             now (ret (Buffer_from ("Content-Type:application/octet-stream;" +:+ term),
                       Some returnData))
         end
     | Some rendered =>
         returnData <- convertToJpeg_async filepath false ;;
         now (ret (Buffer_from ("Content-Type:image/jpeg;" +:+ term), returnData))
     | _ =>
         now (ret (Buffer_from ("Content-Type:" +:+ MIMETYPE env +:+ ";transfer-syntax:"
                                  +:+ XTRANSFER env +:+ term),
                   Some data))
     end ;;
   now (of_result
          (Buffer_concat [Some (fst part); Some (Buffer_from term); snd part;
                          Some (Buffer_from term)])))%async.

(** *** [doWadoRs] (lines 138-253) *)

(** The callback of [json.map] (lines 165-172); [foundInstances] is the
    array it pushes to.  [path.join] raises on [undefined], which is what
    [Value[0]] of an empty [Value] is. *)
Definition check_instance (studyPath : string)
    (instance : gmap string QidoAttribute) (foundInstances : list string)
    : M (bool * list string) :=
  match instance !! "00080018" with
  | Some attribute =>
      match Value attribute !! 0 with
      | Some id =>
          found <- fileExists (path_join env studyPath id) ;;
          ret (found, foundInstances ++ [id])
      | None => throw (TypeError "The path argument must be of type string. Received undefined")
      end
  | None => ret (true, foundInstances)
  end.

(** [await Promise.all(json.map(...))]: the callbacks run in the order of
    [json] up to their existence check, which only reads the storage. *)
Fixpoint check_instances (studyPath : string)
    (json : list (gmap string QidoAttribute)) (foundInstances : list string)
    : M (list bool * list string) :=
  match json with
  | [] => ret ([], foundInstances)
  | instance :: json' =>
      r <- check_instance studyPath instance foundInstances ;;
      rs <- check_instances studyPath json' (snd r) ;;
      ret (fst r :: fst rs, snd rs)
  end.

(** What the cache check (lines 154-180) leaves in [isDir], [useCache] and
    [foundInstances]. *)
Record CacheCheck := {
  isDir : bool;
  useCache : bool;
  foundInstances : list string
}.

Definition checkCache (studyInstanceUid : string)
    (seriesInstanceUid sopInstanceUid : option string)
    (studyPath pathname : string) : M CacheCheck :=
  (* Is the path that we have a directory or a file? *)
  exists_ <- fileExists pathname ;;
  isDir <- (if exists_ : bool then fs_stat_isDirectory pathname else ret true) ;;
  if isDir : bool then
    json <- doFind IMAGE studyInstanceUid (or_empty seriesInstanceUid)
                   (or_empty sopInstanceUid) ;;
    r <- check_instances studyPath json [] ;;
    (* If all of the files for this search exist, then we're gonna use the cache! *)
    ret {| isDir := true;
           useCache := fold_left (fun prev curr => prev && curr) (fst r) true;
           foundInstances := snd r |}
  else
    (* If the file exists, use the cache *)
    useCache <- fileExists pathname ;;
    ret {| isDir := false; useCache := useCache; foundInstances := [] |}.

(** Lines 182-187. *)
Definition ensureFetched (useCache : bool) (pathname studyInstanceUid : string)
    (seriesInstanceUid sopInstanceUid : option string) (queryLevel : QUERY_LEVEL)
    : M unit :=
  if negb useCache then
    logger_info ("fetching " +:+ pathname) ;;;
    waitOrFetchData studyInstanceUid (or_empty seriesInstanceUid)
                    (or_empty sopInstanceUid) queryLevel
  else ret tt.

(** The multipart type of a data format (lines 235-241); [thumbnail] has
    returned before. *)
Definition multipart_type (dataFormat : option DataFormat) : string :=
  let type := "application/dicom" in
  let type := match dataFormat with Some rendered => "image/jpeg" | _ => type end in
  match dataFormat with
  | Some bulkData | Some pixelData => "application/octet-stream"
  | _ => type
  end.

(** Lines 223-247: boundaries around the buffers that are there. *)
Definition assemble (boundary : string) (dataFormat : option DataFormat)
    (buffers : list (option Buffer)) : WadoRsResponse :=
  let buffers := filter (fun b : option Buffer => is_Some b) buffers in
  let buffArray :=
    fold_left
      (fun (buffArray : list Buffer) (buff : option Buffer) =>
         match buff with
         | Some buff => buffArray ++ [Buffer_from ("--" +:+ boundary +:+ term); buff]
         | None => buffArray
         end)
      buffers [] in
  let buffArray := buffArray ++ [Buffer_from ("--" +:+ boundary +:+ "--" +:+ term)] in
  {| contentType := "multipart/related;type='" +:+ multipart_type dataFormat
                      +:+ "';boundary=" +:+ boundary;
     buffer := concat buffArray |}.

(** Lines 189-203: we only need a thumbnail - get it and bail. *)
Definition thumbnail_response (cache : CacheCheck) (pathname : string)
    : M WadoRsResponse :=
  filePath <-
    (if isDir cache then
       match foundInstances cache !! 0 with
       | Some first => ret (path_join env pathname first)
       | None => throw (TypeError "The path argument must be of type string. Received undefined")
       end
     else ret pathname) ;;
  buff <- convertToJpeg filePath true ;;
  match buff with
  | Some buff => ret {| contentType := "image/jpeg"; buffer := buff |}
  | None => throw (Error "Failed to create thumbnail")
  end.

(** The callback of [files.map] (lines 210-214). *)
Definition transform (cache : CacheCheck) (pathname : string)
    (dataFormat : option DataFormat) (file : string) : Async (option Buffer) :=
  if bool_decide (file ∈ foundInstances cache)
  then (part <- addFileToBuffer_async pathname file dataFormat ;;
        now (ret (Some part)))%async
  else now (ret None).

(** Lines 205-252.  What follows an [await] in the [try] block runs when
    the awaited promise has settled: with the buffers when it is fulfilled,
    in the [catch] block when it is rejected. *)
Definition multipart_response (cache : CacheCheck)
    (studyInstanceUid studyPath pathname filename : string)
    (dataFormat : option DataFormat) : M WadoRsResponse :=
  let failed := fun error : exn =>
    logger_error ["failed to process " +:+ pathname] ;;;
    throw error in
  let respond := fun settled : result (list (option Buffer)) =>
    match settled with
    | Ok buffers => ret (assemble studyInstanceUid dataFormat buffers)
    | Throw error => failed error
    end in
  if isDir cache then
    settle_then (fs_readdir pathname)
      (fun listed =>
         match listed with
         | Ok files =>
             await_all (completion_order env files)
               (map (transform cache pathname dataFormat) files) respond
         | Throw error => failed error
         end)
  else
    settle_then (addFileToBuffer studyPath filename dataFormat)
      (fun transformed =>
         match transformed with
         | Ok part => respond (Ok [Some part])
         | Throw error => failed error
         end).

Definition queryLevel_of (seriesInstanceUid : option string) : QUERY_LEVEL :=
  if truthy seriesInstanceUid then SERIES else STUDY.

Definition studyPath_of (studyInstanceUid : string) : string :=
  path_join env (STORAGE_PATH env) studyInstanceUid.

Definition pathname_of (studyInstanceUid : string) (sopInstanceUid : option string)
    : string :=
  if truthy sopInstanceUid
  then path_join env (studyPath_of studyInstanceUid) (or_empty sopInstanceUid)
  else studyPath_of studyInstanceUid.

Definition filename_of (sopInstanceUid : option string) : string :=
  if truthy sopInstanceUid then or_empty sopInstanceUid else EmptyString.

Definition doWadoRs (args : WadoRsArgs) : M WadoRsResponse :=
  let study := studyInstanceUid args in
  let series := seriesInstanceUid args in
  let sop := sopInstanceUid args in
  (* Set up all the paths and query levels. *)
  let queryLevel := queryLevel_of series in
  let studyPath := studyPath_of study in
  let pathname := pathname_of study sop in
  let filename := filename_of sop in
  cache <- checkCache study series sop studyPath pathname ;;
  ensureFetched (useCache cache) pathname study series sop queryLevel ;;;
  match dataFormat args with
  | Some thumbnail => thumbnail_response cache pathname
  | format => multipart_response cache study studyPath pathname filename format
  end.

End Program.

(** ** Vocabulary of the statements *)

(** The arguments of the two converter runs of [convertToJpeg]. *)
Definition single_frame_args (filepath : string) (asThumbnail : bool) : list string :=
  ["+oj"; "+Jq"; if asThumbnail then "10" else "100"; filepath; filepath +:+ ".jpg"].

Definition all_frames_args (filepath : string) (asThumbnail : bool) : list string :=
  ["+oj"; "+Jq"; if asThumbnail then "10" else "100"; "+Fa"; filepath; filepath].

(** What the probes of [convertToJpeg] find in a storage. *)
Definition probe_outcome (fs : gmap string node) (filepath : string)
    : result (option Buffer) :=
  match fs !! (filepath +:+ ".jpg") with
  | Some (File data) => Ok (Some data)
  | Some (Directory _) => Throw (SystemError "EISDIR" (filepath +:+ ".jpg"))
  | None =>
      match fs !! (filepath +:+ ".0.jpg") with
      | Some (File data) => Ok (Some data)
      | Some (Directory _) => Throw (SystemError "EISDIR" (filepath +:+ ".0.jpg"))
      | None => Ok None
      end
  end.

(** The expected instances of a merged query answer: the first value of the
    SOPInstanceUID attribute of every result that carries one. *)
Definition expected_instances (json : list (gmap string QidoAttribute)) : list string :=
  omap (fun instance : gmap string QidoAttribute =>
          instance !! "00080018" ≫= fun attribute => Value attribute !! 0) json.

(** A result that carries the attribute carries a value for it. *)
Definition carries_value (instance : gmap string QidoAttribute) : bool :=
  match instance !! "00080018" with
  | Some attribute => match Value attribute with [] => false | _ => true end
  | None => true
  end.

Definition is_Fetch (e : event) : bool :=
  match e with Fetch _ _ _ _ => true | _ => false end.

Definition is_Exec (e : event) : bool :=
  match e with Exec _ _ => true | _ => false end.

Definition is_Compress (e : event) : bool :=
  match e with Compress _ _ _ => true | _ => false end.

(** The events of one kind in a trace. *)
Definition events (kind : event → bool) (t : list event) : list event :=
  filter (fun e => kind e = true) t.

(** A computation that adds no event of the kind to the trace. *)
Definition silent (kind : event → bool) {A} (m : M A) : Prop :=
  ∀ w, events kind (trace (snd (m w))) = events kind (trace w).

(** The retry of [convertToJpeg] read as a run on the output path of the
    first run: when the single-frame run fails, the converter is run
    exactly once more, with the all-frames flag, and the output argument
    (the last one) of that run is the output argument of the first. *)
Definition retry_targets_same_output (env : Collaborators) (filepath : string)
    (asThumbnail : bool) (w : World) : Prop :=
  ∀ e1,
    fst (child_process env "dcmj2pnm" (single_frame_args filepath asThumbnail) (files w))
      = Throw e1 →
    ∃ args1 args2,
      trace (snd (convertToJpeg env filepath asThumbnail w)) =
        trace w ++ [Exec "dcmj2pnm" args1; Exec "dcmj2pnm" args2]
      ∧ "+Fa" ∈ args2
      ∧ last args2 = last args1.

(** The boundary lines of a multipart body. *)
Definition opening (boundary : string) : Buffer :=
  Buffer_from ("--" +:+ boundary +:+ term).

Definition closing (boundary : string) : Buffer :=
  Buffer_from ("--" +:+ boundary +:+ "--" +:+ term).

(** ** A storage and collaborators to run the program on *)

Module Scenario.

(** [path.join] on segments without dots and separators. *)
Definition join (a b : string) : string :=
  match b with
  | EmptyString => a
  | _ => a +:+ "/" +:+ b
  end.

Definition instance_of (id : string) : gmap string QidoAttribute :=
  {[ "00080018" := {| Value := [id]; vr := "UI" |} ]}.

(** The remote source knows two studies. *)
Definition pacs (level : QUERY_LEVEL) (study series sop : string)
    : result (list QidoResponse) :=
  if String.eqb study "S2" then Ok [instance_of "I1"; instance_of "I2"]
  else if String.eqb study "S3" then Ok [instance_of "a"; instance_of "b"; instance_of "c"]
  else Ok [].

(** A retrieve stores the second instance of study S2. *)
Definition fetch (study series sop : string) (level : QUERY_LEVEL)
    (fs : gmap string node) : result unit * gmap string node :=
  (Ok tt, <[ "/data/S2/I2" := File [x02; x0d] ]>
            (<[ "/data/S2" := Directory ["I1"; "I2"] ]> fs)).

(** A converter that reads the first byte of its input: 1 is a single
    frame, 2 is a multi-frame object it converts only with all frames, 3 is
    an object it converts to nothing. *)
Definition dcmj2pnm (file : string) (args : list string) (fs : gmap string node)
    : result unit * gmap string node :=
  match args with
  | [_; _; _; input; output] =>
      match fs !! input with
      | Some (File (x01 :: rest)) => (Ok tt, <[ output := File (xff :: xd8 :: rest) ]> fs)
      | Some (File (x03 :: rest)) => (Ok tt, fs)
      | _ => (Throw (Rejected "dcmj2pnm" "cannot convert a single frame"), fs)
      end
  | [_; _; _; _; input; output] =>
      match fs !! input with
      | Some (File (x02 :: rest)) =>
          (Ok tt, <[ output +:+ ".0.jpg" := File (xff :: xd8 :: rest) ]> fs)
      | _ => (Throw (Rejected "dcmj2pnm" "cannot convert all frames"), fs)
      end
  | _ => (Throw (Rejected "dcmj2pnm" "usage"), fs)
  end.

(** A parser that finds two bytes of pixel data after the first byte. *)
Definition parse (data : Buffer) : result DataSet :=
  Ok {| elements :=
          if Nat.leb 3 (List.length data)
          then {[ "x7fe00010" := {| Element.dataOffset := 1; Element.length := 2 |} ]}
          else ∅;
        byteArray_buffer := data |}.

Definition env : Collaborators := {|
  path_join := join;
  STORAGE_PATH := "/data";
  MIMETYPE := "application/dicom";
  XTRANSFER := "1.2.840.10008.1.2.1";
  metadata_query := pacs;
  fetch_orchestrator := fetch;
  transcoder := fun _ _ _ fs => (Ok tt, fs);
  child_process := dcmj2pnm;
  dicomParser := parse;
  completion_order := fun _ => [2; 2; 2; 2; 2; 0; 0; 0; 0; 0; 1; 1; 1; 1; 1]
|}.

(** The paths of an object of a directory: the object and the two outputs
    of the converter for it. *)
Definition region (pathname file p : string) : Prop :=
  p = join pathname file ∨
  p = join pathname file +:+ ".jpg" ∨
  p = join pathname file +:+ ".0.jpg".

Definition storage : gmap string node :=
  {[ "/data/S1" := Directory ["I1"];
     "/data/S1/I1" := File [x01; x0a; x0b; x0c];
     "/data/S2" := Directory ["I1"];
     "/data/S2/I1" := File [x01; x0a; x0b; x0c];
     "/data/S3" := Directory ["a"; "b"; "c"];
     "/data/S3/a" := File [x01; x0a; x0a; x0a];
     "/data/S3/b" := File [x02; x0b; x0b; x0b];
     "/data/S3/c" := File [x03; x0c; x0c; x0c] ]}.

Definition w0 : World := {| files := storage; trace := [] |}.

Definition request (study : string) (sop : option string) (format : option DataFormat)
    : WadoRsArgs :=
  {| studyInstanceUid := study;
     seriesInstanceUid := None;
     sopInstanceUid := sop;
     dataFormat := format;
     frame := None |}.

End Scenario.

(** ** More vocabulary *)

Definition is_Find (e : event) : bool :=
  match e with Find _ _ _ _ => true | _ => false end.

Definition is_LogError (e : event) : bool :=
  match e with LogError _ => true | _ => false end.

(** The transfer syntax [addFileToBuffer] asks the transcoder for. *)
Definition target_syntax (dataFormat : option DataFormat) : option string :=
  match dataFormat with
  | Some _ => Some "1.2.840.10008.1.2"
  | None => None
  end.

(** ** Vocabulary of concurrent tasks *)

(** A computation that takes every world to one that [R] relates it to. *)
Definition preserves (R : World → World → Prop) {A} (m : M A) : Prop :=
  ∀ w, R w (snd (m w)).

(** A task every step of which does. *)
Fixpoint task_preserves (R : World → World → Prop) {A} (t : Task A) : Prop :=
  match t with
  | Settled _ => True
  | Pending resume =>
      ∀ w, R w (snd (resume w)) ∧ task_preserves R (fst (resume w))
  end.

(** A call every step of which does, the one up to the first [await]
    included. *)
Definition call_preserves (R : World → World → Prop) {A} (a : Async A) : Prop :=
  ∀ w, R w (snd (a w)) ∧ task_preserves R (fst (a w)).

(** No event of the kind is added. *)
Definition quiet (kind : event → bool) (w w' : World) : Prop :=
  events kind (trace w') = events kind (trace w).


(** The storage is changed at most on the paths of a region. *)
Definition changes_within (region : string → Prop) (w w' : World) : Prop :=
  ∀ p, ¬ region p → files w' !! p = files w !! p.






Definition is_settled {A} (t : Task A) : bool :=
  match t with
  | Settled _ => true
  | Pending _ => false
  end.

(** A task that is fulfilled only with values that satisfy [post]. *)
Fixpoint task_returns {A} (post : A → Prop) (t : Task A) : Prop :=
  match t with
  | Settled (Ok x) => post x
  | Settled (Throw _) => True
  | Pending resume => ∀ w, task_returns post (fst (resume w))
  end.

Definition call_returns {A} (post : A → Prop) (a : Async A) : Prop :=
  ∀ w, task_returns post (fst (a w)).

(** The log line of a request that fails after the fetch step. *)
Definition is_failure_report (pathname : string) (e : event) : bool :=
  match e with
  | LogError [message] => String.eqb message ("failed to process " +:+ pathname)
  | _ => false
  end.

(** ** Collaborators that fail *)

Module Faults.

(** The collaborators of [Scenario] with another metadata query, fetch
    orchestrator and transcoder. *)
Definition collaborators
    (query : QUERY_LEVEL -> string -> string -> string -> result (list QidoResponse))
    (fetch : string -> string -> string -> QUERY_LEVEL ->
             gmap string node -> result unit * gmap string node)
    (transcode : string -> string -> option string ->
                 gmap string node -> result unit * gmap string node)
    : Collaborators := {|
  path_join := Scenario.join;
  STORAGE_PATH := "/data";
  MIMETYPE := "application/dicom";
  XTRANSFER := "1.2.840.10008.1.2.1";
  metadata_query := query;
  fetch_orchestrator := fetch;
  transcoder := transcode;
  child_process := Scenario.dcmj2pnm;
  dicomParser := Scenario.parse;
  completion_order := completion_order Scenario.env
|}.

Definition transcoder_ok (filepath pathname : string) (syntax : option string)
    (fs : gmap string node) : result unit * gmap string node :=
  (Ok tt, fs).

(** The transcoder rejects every object and leaves it as it is. *)
Definition transcoder_down : Collaborators :=
  collaborators Scenario.pacs Scenario.fetch
    (fun _ _ _ fs => (Throw (Rejected "transcoder" "unavailable"), fs)).

(** The remote source does not answer queries. *)
Definition query_down : Collaborators :=
  collaborators (fun _ _ _ _ => Throw (Rejected "pacs" "unreachable"))
    Scenario.fetch transcoder_ok.

(** The remote source answers with a SOPInstanceUID attribute without a
    value. *)
Definition valueless : Collaborators :=
  collaborators
    (fun _ _ _ _ => Ok [Scenario.instance_of "I1";
                        {[ "00080018" := {| Value := []; vr := "UI" |} ]}])
    Scenario.fetch transcoder_ok.

(** The remote source answers queries but no retrieve gets through. *)
Definition fetch_down : Collaborators :=
  collaborators Scenario.pacs
    (fun _ _ _ _ fs => (Throw (Rejected "fetch" "timed out"), fs))
    transcoder_ok.

(** The storage of [Scenario] with an object of one byte, in which the
    parser of [Scenario] finds no pixel data. *)
Definition w_tiny : World :=
  {| files := <[ "/data/S1/tiny" := File [x01] ]> Scenario.storage; trace := [] |}.

End Faults.

(** ** Properties *)

(** *** Traces *)

Section Silence.

Context (kind : event → bool).

Lemma events_app (t1 t2 : list event) :
  events kind (t1 ++ t2) = events kind t1 ++ events kind t2.
Proof. apply filter_app. Qed.

Lemma silent_ret {A} (a : A) : silent kind (ret a).
Proof. intros w. reflexivity. Qed.

Lemma silent_throw {A} (e : exn) : silent kind (@throw A e).
Proof. intros w. reflexivity. Qed.

Lemma silent_of_result {A} (r : result A) : silent kind (of_result r).
Proof. intros w. reflexivity. Qed.

Lemma silent_on_files {A} (f : gmap string node → result A * gmap string node) :
  silent kind (on_files f).
Proof. intros w. unfold on_files. destruct (f (files w)). reflexivity. Qed.

Lemma silent_emit (e : event) : kind e = false → silent kind (emit e).
Proof.
  intros He w. unfold emit. cbn [snd trace]. rewrite events_app. unfold events at 2.
  rewrite filter_cons_False, filter_nil by congruence. apply app_nil_r.
Qed.

Lemma silent_fileExists (p : string) : silent kind (fileExists p).
Proof. intros w. reflexivity. Qed.

Lemma silent_fs_stat_isDirectory (p : string) : silent kind (fs_stat_isDirectory p).
Proof. intros w. unfold fs_stat_isDirectory. destruct (files w !! p) as [[]|]; reflexivity. Qed.

Lemma silent_fs_readFile (p : string) : silent kind (fs_readFile p).
Proof. intros w. unfold fs_readFile. destruct (files w !! p) as [[]|]; reflexivity. Qed.

Lemma silent_fs_readdir (p : string) : silent kind (fs_readdir p).
Proof. intros w. unfold fs_readdir. destruct (files w !! p) as [[]|]; reflexivity. Qed.

Lemma silent_bind {A B} (m : M A) (k : A → M B) :
  silent kind m → (∀ a, silent kind (k a)) → silent kind (bind m k).
Proof.
  intros Hm Hk w. unfold bind. specialize (Hm w).
  destruct (m w) as [[a|e] w'].
  - rewrite Hk. exact Hm.
  - exact Hm.
Qed.

Lemma silent_try_catch {A} (body : M A) (handler : exn → M A) :
  silent kind body → (∀ e, silent kind (handler e)) →
  silent kind (try_catch body handler).
Proof.
  intros Hm Hk w. unfold try_catch. specialize (Hm w).
  destruct (body w) as [[a|e] w'].
  - exact Hm.
  - rewrite Hk. exact Hm.
Qed.

End Silence.

Ltac silence_with tac :=
  repeat first
    [ tac
    | apply silent_ret | apply silent_throw | apply silent_of_result
    | apply silent_on_files | apply silent_fileExists
    | apply silent_fs_stat_isDirectory | apply silent_fs_readFile
    | apply silent_fs_readdir
    | apply silent_emit; reflexivity
    | apply silent_bind; [|intros ?]
    | apply silent_try_catch; [|intros ?]
    | match goal with
      | |- silent _ (match ?x with _ => _ end) => destruct x
      end ].

Ltac silence := silence_with fail.

(** *** Tasks *)

Lemma run_now {A} (m : M A) (w : World) : run (now m) w = m w.
Proof. unfold run, now. destruct (m w). reflexivity. Qed.

Lemma run_later {A} (m : M A) (w : World) : run (later m) w = m w.
Proof. unfold run, later. cbn. unfold now. destruct (m w). reflexivity. Qed.

Lemma run_and_then {A B} (t : Task A) (k : result A → Async B) (w : World) :
  run (and_then t k) w = let (r, w') := complete t w in run (k r) w'.
Proof.
  revert w. induction t as [r|resume IH] using Task_induction; intros w.
  - reflexivity.
  - unfold run in *. cbn. specialize (IH w).
    destruct (resume w) as [t' w']. apply IH.
Qed.

Lemma run_abind {A B} (a : Async A) (k : A → Async B) (w : World) :
  run (abind a k) w = bind (run a) (fun x => run (k x)) w.
Proof.
  pose proof (fun t => run_and_then t
                (fun r => match r with Ok x => k x | Throw e => now (throw e) end)) as H.
  unfold abind, bind, run in *. destruct (a w) as [t w1]. rewrite H.
  destruct (complete t w1) as [[x|e] w2]; reflexivity.
Qed.

Lemma run_atry_catch {A} (body : Async A) (handler : exn → Async A) (w : World) :
  run (atry_catch body handler) w = try_catch (run body) (fun e => run (handler e)) w.
Proof.
  pose proof (fun t => run_and_then t
                (fun r => match r with Ok x => now (ret x) | Throw e => handler e end)) as H.
  unfold atry_catch, try_catch, run in *. destruct (body w) as [t w1]. rewrite H.
  destruct (complete t w1) as [[x|e] w2]; reflexivity.
Qed.

Lemma bind_ext {A B} (m m' : M A) (k k' : A → M B) (w : World) :
  (∀ w, m w = m' w) → (∀ a w, k a w = k' a w) → bind m k w = bind m' k' w.
Proof.
  intros Hm Hk. unfold bind. rewrite Hm. destruct (m' w) as [[a|e] w']; [apply Hk|reflexivity].
Qed.

Lemma try_catch_ext {A} (m m' : M A) (k k' : exn → M A) (w : World) :
  (∀ w, m w = m' w) → (∀ e w, k e w = k' e w) → try_catch m k w = try_catch m' k' w.
Proof.
  intros Hm Hk. unfold try_catch. rewrite Hm.
  destruct (m' w) as [[a|e] w']; [reflexivity|apply Hk].
Qed.

(** **** What every step of a task preserves *)

Section Preserved.

Context (R : World → World → Prop) `{!PreOrder R}.

Local Set Default Proof Using "All".

Lemma call_preserves_now {A} (m : M A) : preserves R m → call_preserves R (now m).
Proof.
  intros H w. unfold now. specialize (H w). destruct (m w). split; [exact H|exact I].
Qed.

Lemma call_preserves_later {A} (m : M A) : preserves R m → call_preserves R (later m).
Proof.
  intros H w. split; [reflexivity|]. apply (call_preserves_now m H).
Qed.

Lemma call_preserves_and_then {A B} (t : Task A) (k : result A → Async B) :
  task_preserves R t → (∀ r, call_preserves R (k r)) → call_preserves R (and_then t k).
Proof.
  intros Ht Hk. induction t as [r|resume IH] using Task_induction.
  - apply Hk.
  - intros w. split; [reflexivity|]. intros w1. cbn in Ht.
    destruct (Ht w1) as [HR Ht']. specialize (IH w1 Ht').
    destruct (resume w1) as [t' w1']. cbn in *.
    destruct (IH w1') as [HR' Ht'']. split; [etransitivity; eassumption|exact Ht''].
Qed.

Lemma call_preserves_abind {A B} (a : Async A) (k : A → Async B) :
  call_preserves R a → (∀ x, call_preserves R (k x)) → call_preserves R (abind a k).
Proof.
  intros Ha Hk w. unfold abind. destruct (Ha w) as [HR Ht].
  destruct (a w) as [t w1]. cbn in *.
  destruct (call_preserves_and_then t
              (fun r => match r with Ok x => k x | Throw e => now (throw e) end) Ht) with w1
    as [HR' Ht'].
  { intros [x|e]; [apply Hk|]. apply call_preserves_now. intros w'. cbn. reflexivity. }
  split; [etransitivity; [exact HR|exact HR']|exact Ht'].
Qed.

Lemma call_preserves_atry_catch {A} (body : Async A) (handler : exn → Async A) :
  call_preserves R body → (∀ e, call_preserves R (handler e)) →
  call_preserves R (atry_catch body handler).
Proof.
  intros Ha Hk w. unfold atry_catch. destruct (Ha w) as [HR Ht].
  destruct (body w) as [t w1]. cbn in *.
  destruct (call_preserves_and_then t
              (fun r => match r with Ok x => now (ret x) | Throw e => handler e end) Ht) with w1
    as [HR' Ht'].
  { intros [x|e]; [|apply Hk]. apply call_preserves_now. intros w'. cbn. reflexivity. }
  split; [etransitivity; [exact HR|exact HR']|exact Ht'].
Qed.

Lemma complete_preserves {A} (t : Task A) (w : World) :
  task_preserves R t → R w (snd (complete t w)).
Proof.
  revert w. induction t as [r|resume IH] using Task_induction; intros w Ht.
  - reflexivity.
  - cbn in *. destruct (Ht w) as [HR Ht']. specialize (IH w).
    destruct (resume w) as [t' w']. cbn in *. etransitivity; [exact HR|apply IH, Ht'].
Qed.

End Preserved.

(** **** Invariants of a race *)

Section Invariant.

Context {A : Type} (Inv : list (Task A) → World → Prop).

Hypothesis Inv_resume :
  ∀ i pool w, Inv pool w → Inv (fst (resume_at i pool w)) (snd (resume_at i pool w)).

Local Set Default Proof Using "All".

Lemma follow_invariant (halt : list (Task A) → bool) (schedule : list nat)
    (pool : list (Task A)) (w : World) :
  Inv pool w →
  Inv (snd (fst (follow halt schedule pool w))) (snd (follow halt schedule pool w)).
Proof.
  revert pool w. induction schedule as [|i schedule IH]; intros pool w H; cbn.
  - destruct (halt pool); exact H.
  - destruct (halt pool); [exact H|].
    pose proof (Inv_resume i pool w H) as H'.
    destruct (resume_at i pool w) as [pool' w']. apply IH, H'.
Qed.

Lemma finish_one_invariant (halt : list (Task A) → bool) (i : nat) (t : Task A)
    (pool : list (Task A)) (w : World) :
  pool !! i = Some t → Inv pool w →
  Inv (fst (finish_one halt i t pool w)) (snd (finish_one halt i t pool w)).
Proof.
  revert pool w. induction t as [r|resume IH] using Task_induction; intros pool w Hi H; cbn.
  - destruct (halt pool); exact H.
  - destruct (halt pool); [exact H|].
    pose proof (Inv_resume i pool w H) as H'. unfold resume_at in H'. rewrite Hi in H'.
    specialize (IH w). destruct (resume w) as [t' w']. cbn in *.
    apply IH; [|exact H'].
    apply list_lookup_insert_eq. eapply lookup_lt_Some, Hi.
Qed.

Lemma finish_invariant (halt : list (Task A) → bool) (positions : list nat)
    (pool : list (Task A)) (w : World) :
  Inv pool w →
  Inv (fst (finish halt positions pool w)) (snd (finish halt positions pool w)).
Proof.
  revert pool w. induction positions as [|i positions IH]; intros pool w H; cbn.
  - exact H.
  - destruct (pool !! i) as [t|] eqn:Hi; [|apply IH, H].
    pose proof (finish_one_invariant halt i t pool w Hi H) as H'.
    destruct (finish_one halt i t pool w) as [pool' w']. apply IH, H'.
Qed.

End Invariant.

(** **** The calls of [Promise.all] are steps of the tasks *)

Lemma start_all_as_resumes {A} (started : list (Task A)) (tasks : list (Async A))
    (w : World) :
  follow (fun _ => false) (seq (length started) (length tasks))
    (started ++ map Pending tasks) w
  = ([], started ++ fst (start_all tasks w), snd (start_all tasks w)).
Proof.
  revert started w. induction tasks as [|a tasks IH]; intros started w.
  - reflexivity.
  - cbn [length seq map start_all follow]. unfold resume_at.
    rewrite list_lookup_middle by reflexivity.
    destruct (a w) as [t w1].
    rewrite insert_app_r_alt, Nat.sub_diag by reflexivity. cbn [insert list_insert].
    specialize (IH (started ++ [t]) w1).
    rewrite length_app, Nat.add_1_r, <- app_assoc in IH. cbn [app] in IH. rewrite IH.
    destruct (start_all tasks w1) as [ts w2]. cbn [fst snd].
    rewrite <- app_assoc. reflexivity.
Qed.

Lemma resume_at_length {A} (i : nat) (pool : list (Task A)) (w : World) :
  length (fst (resume_at i pool w)) = length pool.
Proof.
  unfold resume_at. destruct (pool !! i) as [[r|resume]|]; try reflexivity.
  destruct (resume w). apply length_insert.
Qed.

Section RaceInvariant.

Context {A : Type} (Inv : list (Task A) → World → Prop).

Hypothesis Inv_resume :
  ∀ i pool w, Inv pool w → Inv (fst (resume_at i pool w)) (snd (resume_at i pool w)).

Local Set Default Proof Using "All".

Lemma start_all_invariant (tasks : list (Async A)) (w : World) :
  Inv (map Pending tasks) w →
  Inv (fst (start_all tasks w)) (snd (start_all tasks w)).
Proof.
  intros H.
  pose proof (follow_invariant Inv Inv_resume (fun _ => false) (seq 0 (length tasks))
                (map Pending tasks) w H) as H'.
  pose proof (start_all_as_resumes [] tasks w) as E. cbn [length app] in E.
  rewrite E in H'. exact H'.
Qed.

Lemma race_invariant (schedule : list nat) (tasks : list (Async A)) (w : World) :
  Inv (map Pending tasks) w →
  Inv (snd (fst (race schedule tasks w))) (snd (race schedule tasks w)).
Proof.
  intros H. apply start_all_invariant in H. unfold race.
  destruct (start_all tasks w) as [pool0 w0]. cbn [fst snd] in H.
  apply (follow_invariant Inv Inv_resume has_settled schedule) in H.
  destruct (follow has_settled schedule pool0 w0) as [[schedule' pool1] w1].
  cbn [fst snd] in H.
  apply (finish_invariant Inv Inv_resume has_settled (seq 0 (length tasks))) in H.
  destruct (finish has_settled (seq 0 (length tasks)) pool1 w1) as [pool2 w2].
  exact H.
Qed.

Lemma run_on_invariant (schedule : list nat) (pool : list (Task A)) (w : World) :
  Inv pool w → ∃ pool', Inv pool' (run_on schedule pool w).
Proof.
  intros H. unfold run_on.
  apply (follow_invariant Inv Inv_resume (fun _ => false) schedule) in H.
  destruct (follow (fun _ => false) schedule pool w) as [[schedule' pool1] w1].
  cbn [fst snd] in H.
  apply (finish_invariant Inv Inv_resume (fun _ => false) (seq 0 (length pool))) in H.
  eauto.
Qed.

End RaceInvariant.

(** **** [Promise.all] settles *)

Lemma settlement_of_settled {A} (pool : list (Task A)) :
  Forall (fun t => is_settled t = true) pool → is_Some (settlement pool).
Proof.
  unfold settlement. induction 1 as [|t pool Ht _ IH]; [eexists; reflexivity|].
  destruct t as [[a|e]|resume]; [|eexists; reflexivity|discriminate].
  change (omap rejected (Settled (Ok a) :: pool)) with (omap rejected pool).
  destruct (omap rejected pool); [|eexists; reflexivity].
  destruct IH as [r Hr]. cbn. destruct (mapM fulfilled pool); [|discriminate].
  eexists; reflexivity.
Qed.

Lemma finish_one_spec {A} (halt : list (Task A) → bool) (i : nat) (t : Task A)
    (pool : list (Task A)) (w : World) :
  pool !! i = Some t →
  length (fst (finish_one halt i t pool w)) = length pool ∧
  (∀ j, j ≠ i → fst (finish_one halt i t pool w) !! j = pool !! j) ∧
  (halt (fst (finish_one halt i t pool w)) = true ∨
   ∃ r, fst (finish_one halt i t pool w) !! i = Some (Settled r)).
Proof.
  revert pool w. induction t as [r|resume IH] using Task_induction; intros pool w Hi; cbn.
  - destruct (halt pool) eqn:Hh; cbn; eauto.
  - destruct (halt pool) eqn:Hh; cbn; [eauto|].
    specialize (IH w). destruct (resume w) as [t' w']. cbn in IH.
    destruct (IH (<[i:=t']> pool) w') as (Hlen & Hother & Hdone).
    { apply list_lookup_insert_eq. eapply lookup_lt_Some, Hi. }
    split; [|split].
    + rewrite Hlen. apply length_insert.
    + intros j Hj. rewrite Hother by exact Hj. apply list_lookup_insert_ne. congruence.
    + exact Hdone.
Qed.

Lemma finish_halted {A} (halt : list (Task A) → bool) (positions : list nat)
    (pool : list (Task A)) (w : World) :
  halt pool = true → finish halt positions pool w = (pool, w).
Proof.
  intros Hh. induction positions as [|i positions IH]; cbn; [reflexivity|].
  destruct (pool !! i) as [t|]; [|exact IH].
  assert (finish_one halt i t pool w = (pool, w)) as ->; [|exact IH].
  destruct t; cbn; rewrite Hh; reflexivity.
Qed.

Lemma finish_settles {A} (positions : list nat) (pool : list (Task A)) (w : World) :
  (∀ j t, pool !! j = Some t → j ∈ positions ∨ is_settled t = true) →
  has_settled (fst (finish has_settled positions pool w)) = true.
Proof.
  revert pool w. induction positions as [|i positions IH]; intros pool w H; cbn.
  - destruct (settlement_of_settled pool) as [r Hr].
    + apply Forall_lookup_2. intros j t Hj. destruct (H j t Hj) as [Hin|Hs]; [|exact Hs].
      inversion Hin.
    + unfold has_settled. rewrite Hr. reflexivity.
  - destruct (pool !! i) as [t|] eqn:Hi.
    + destruct (finish_one_spec has_settled i t pool w Hi) as (_ & Hother & Hdone).
      destruct (finish_one has_settled i t pool w) as [pool1 w1]. cbn [fst] in *.
      destruct Hdone as [Hh|[r Hr]].
      * rewrite finish_halted by exact Hh. exact Hh.
      * apply IH. intros j t' Hj. destruct (decide (j = i)) as [->|Hne].
        -- rewrite Hr in Hj. injection Hj as <-. right. reflexivity.
        -- rewrite Hother in Hj by exact Hne.
           destruct (H j t' Hj) as [Hin|Hs]; [|right; exact Hs].
           left. apply elem_of_cons in Hin as [->|Hin]; [contradiction|exact Hin].
    + apply IH. intros j t' Hj. destruct (H j t' Hj) as [Hin|Hs]; [|right; exact Hs].
      left. apply elem_of_cons in Hin as [->|Hin]; [congruence|exact Hin].
Qed.

Lemma race_settles {A} (schedule : list nat) (tasks : list (Async A)) (w : World) :
  is_Some (settlement (snd (fst (race schedule tasks w)))).
Proof.
  enough (has_settled (snd (fst (race schedule tasks w))) = true) as H.
  { unfold has_settled in H. destruct (settlement _); [eauto|discriminate]. }
  unfold race.
  set (Inv := fun (pool : list (Task A)) (_ : World) => length pool = length tasks).
  assert (∀ i pool w', Inv pool w' →
            Inv (fst (resume_at i pool w')) (snd (resume_at i pool w'))) as Hinv.
  { intros i pool w' H. unfold Inv in *. rewrite resume_at_length. exact H. }
  pose proof (start_all_invariant Inv Hinv tasks w (length_map _ _)) as H0.
  destruct (start_all tasks w) as [pool0 w0]. cbn [fst snd] in H0.
  pose proof (follow_invariant Inv Hinv has_settled schedule pool0 w0 H0) as H1.
  destruct (follow has_settled schedule pool0 w0) as [[schedule' pool1] w1].
  cbn [fst snd] in H1. unfold Inv in H1.
  pose proof (finish_settles (seq 0 (length tasks)) pool1 w1) as H.
  destruct (finish has_settled (seq 0 (length tasks)) pool1 w1) as [pool2 w2].
  apply H. intros j t Hj. left. apply elem_of_seq. apply lookup_lt_Some in Hj. lia.
Qed.

(** [await Promise.all(tasks)] goes on with the settlement of the race, and
    the world is then left to the tasks that are still pending. *)
Lemma await_all_settled {A B} (schedule : list nat) (tasks : list (Async A))
    (k : result (list A) → M B) (w : World) :
  ∃ r,
    settlement (snd (fst (race schedule tasks w))) = Some r ∧
    await_all schedule tasks k w =
      (fst (k r (snd (race schedule tasks w))),
       run_on (fst (fst (race schedule tasks w))) (snd (fst (race schedule tasks w)))
         (snd (k r (snd (race schedule tasks w))))).
Proof.
  destruct (race_settles schedule tasks w) as [r Hr]. exists r. split; [exact Hr|].
  unfold await_all. destruct (race schedule tasks w) as [[rest pool] w1].
  cbn [fst snd] in *. rewrite Hr. destruct (k r w1). reflexivity.
Qed.

Lemma Promise_all_settled {A} (schedule : list nat) (tasks : list (Async A)) (w : World) :
  settlement (snd (fst (race schedule tasks w))) = Some (fst (Promise_all schedule tasks w)).
Proof.
  destruct (await_all_settled schedule tasks of_result w) as (r & Hr & E).
  unfold Promise_all. rewrite E. exact Hr.
Qed.

(** **** Tasks that have settled when they are called *)

Lemma await_all_of_settled {A B} (schedule : list nat) (tasks : list (Async A))
    (k : result (list A) → M B) (w : World) :
  Forall (fun t => is_settled t = true) (fst (start_all tasks w)) →
  ∃ r,
    settlement (fst (start_all tasks w)) = Some r ∧
    await_all schedule tasks k w = k r (snd (start_all tasks w)).
Proof.
  intros Hs.
  assert (∀ i pool w', pool = fst (start_all tasks w) →
            resume_at i pool w' = (pool, w')) as Hresume.
  { intros i pool w' ->. unfold resume_at.
    destruct (fst (start_all tasks w) !! i) as [t|] eqn:Hi; [|reflexivity].
    eapply Forall_lookup_1 in Hs; [|exact Hi]. destruct t; [reflexivity|discriminate]. }
  set (Inv w0 := fun (pool : list (Task A)) (w' : World) =>
                   pool = fst (start_all tasks w) ∧ w' = w0).
  assert (∀ w0 i pool w', Inv w0 pool w' →
            Inv w0 (fst (resume_at i pool w')) (snd (resume_at i pool w'))) as Hinv.
  { intros w0 i pool w' [-> ->]. rewrite Hresume by reflexivity. split; reflexivity. }
  destruct (settlement_of_settled _ Hs) as [r Hr]. exists r. split; [exact Hr|].
  unfold await_all, race.
  destruct (start_all tasks w) as [pool0 w0] eqn:E0. cbn [fst snd] in *.
  pose proof (follow_invariant (Inv w0) (Hinv w0) has_settled schedule pool0 w0
                (conj eq_refl eq_refl)) as H1.
  destruct (follow has_settled schedule pool0 w0) as [[schedule' pool1] w1].
  unfold Inv in H1. cbn [fst snd] in H1. destruct H1 as [-> ->].
  pose proof (finish_invariant (Inv w0) (Hinv w0) has_settled (seq 0 (length tasks))
                pool0 w0 (conj eq_refl eq_refl)) as H2.
  destruct (finish has_settled (seq 0 (length tasks)) pool0 w0) as [pool2 w2].
  unfold Inv in H2. cbn [fst snd] in H2. destruct H2 as [-> ->]. rewrite Hr.
  destruct (k r w0) as [b w3] eqn:Ek.
  destruct (run_on_invariant (Inv w3) (Hinv w3) schedule' pool0 w3 (conj eq_refl eq_refl))
    as (pool' & _ & E).
  rewrite E. reflexivity.
Qed.

Lemma await_all_pure {A B} (schedule : list nat) (tasks : list (Async A))
    (values : list A) (k : result (list A) → M B) (w : World) :
  Forall2 (fun task v => ∀ w, task w = (Settled (Ok v), w)) tasks values →
  await_all schedule tasks k w = k (Ok values) w.
Proof.
  intros Hpure.
  assert (start_all tasks w = (map (fun v => Settled (Ok v)) values, w)) as Hstart.
  { induction Hpure as [|task v tasks values Hv _ IH]; [reflexivity|].
    cbn. rewrite Hv, IH. reflexivity. }
  destruct (await_all_of_settled schedule tasks k w) as (r & Hr & ->).
  { rewrite Hstart. cbn [fst]. apply Forall_map, Forall_forall. reflexivity. }
  rewrite Hstart in *. cbn [fst snd] in *.
  assert (settlement (map (fun v : A => Settled (Ok v)) values) = Some (Ok values)) as Hs.
  { clear. unfold settlement.
    assert (omap rejected (map (fun v : A => Settled (Ok v)) values) = []) as ->.
    { induction values as [|v values IH]; [reflexivity|exact IH]. }
    assert (mapM fulfilled (map (fun v : A => Settled (Ok v)) values) = Some values) as ->.
    { induction values as [|v values IH]; [reflexivity|]. cbn. cbn in IH. rewrite IH.
      reflexivity. }
    reflexivity. }
  rewrite Hs in Hr. injection Hr as <-. reflexivity.
Qed.

(** **** What [Promise.all] preserves *)

Section PreservedByAll.

Context (R : World → World → Prop) `{!PreOrder R} {A : Type}.

Local Set Default Proof Using "All".

Lemma resume_at_preserves (w0 : World) (i : nat) (pool : list (Task A)) (w : World) :
  R w0 w ∧ Forall (task_preserves R) pool →
  R w0 (snd (resume_at i pool w)) ∧ Forall (task_preserves R) (fst (resume_at i pool w)).
Proof.
  intros [HR Hp]. unfold resume_at.
  destruct (pool !! i) as [[r|resume]|] eqn:Hi; try (split; assumption).
  pose proof (Forall_lookup_1 _ _ _ _ Hp Hi) as Hres. cbn in Hres.
  destruct (Hres w) as [HR' Ht']. destruct (resume w) as [t' w']. cbn [fst snd] in *.
  split; [etransitivity; eassumption|]. apply Forall_insert; assumption.
Qed.

End PreservedByAll.

Global Instance quiet_preorder (kind : event → bool) : PreOrder (quiet kind).
Proof.
  split.
  - intros w. reflexivity.
  - intros w1 w2 w3 H12 H23. unfold quiet in *. congruence.
Qed.

Global Instance changes_within_preorder (region : string → Prop) :
  PreOrder (changes_within region).
Proof.
  split.
  - intros w p _. reflexivity.
  - intros w1 w2 w3 H12 H23 p Hp. rewrite H23, H12 by exact Hp. reflexivity.
Qed.

(** The events of a kind that the calls add before their first [await]
    are all that a race adds, when the tasks are quiet afterwards. *)
Lemma start_all_events (kind : event → bool) {A} (tasks : list (Async A))
    (added : list (list event)) (w : World) :
  Forall2 (fun a es => ∀ w, events kind (trace (snd (a w))) = events kind (trace w) ++ es
                          ∧ task_preserves (quiet kind) (fst (a w))) tasks added →
  events kind (trace (snd (start_all tasks w))) = events kind (trace w) ++ concat added ∧
  Forall (task_preserves (quiet kind)) (fst (start_all tasks w)).
Proof.
  intros H. revert w. induction H as [|a es tasks added Ha _ IH]; intros w; cbn.
  - split; [symmetry; apply app_nil_r|constructor].
  - destruct (Ha w) as [E1 Ht]. destruct (a w) as [t w1]. cbn [fst snd] in *.
    destruct (IH w1) as [E2 Hts]. destruct (start_all tasks w1) as [ts w2].
    cbn [fst snd] in *. split; [|constructor; assumption].
    rewrite E2, E1, app_assoc. reflexivity.
Qed.

Lemma race_invariant_started {A} (Inv : list (Task A) → World → Prop)
    (schedule : list nat) (tasks : list (Async A)) (w : World) :
  (∀ i pool w, Inv pool w → Inv (fst (resume_at i pool w)) (snd (resume_at i pool w))) →
  Inv (fst (start_all tasks w)) (snd (start_all tasks w)) →
  Inv (snd (fst (race schedule tasks w))) (snd (race schedule tasks w)).
Proof.
  intros Hinv H. unfold race.
  destruct (start_all tasks w) as [pool0 w0]. cbn [fst snd] in H.
  apply (follow_invariant Inv Hinv has_settled schedule) in H.
  destruct (follow has_settled schedule pool0 w0) as [[schedule' pool1] w1].
  cbn [fst snd] in H.
  apply (finish_invariant Inv Hinv has_settled (seq 0 (length tasks))) in H.
  destruct (finish has_settled (seq 0 (length tasks)) pool1 w1) as [pool2 w2].
  exact H.
Qed.

Lemma await_all_events (kind : event → bool) {A B} (schedule : list nat)
    (tasks : list (Async A)) (added : list (list event))
    (k : result (list A) → M B) (w : World) :
  Forall2 (fun a es => ∀ w, events kind (trace (snd (a w))) = events kind (trace w) ++ es
                          ∧ task_preserves (quiet kind) (fst (a w))) tasks added →
  (∀ r, preserves (quiet kind) (k r)) →
  events kind (trace (snd (await_all schedule tasks k w)))
  = events kind (trace w) ++ concat added.
Proof.
  intros Ht Hk.
  destruct (start_all_events kind tasks added w Ht) as [E0 Hp0].
  destruct (await_all_settled schedule tasks k w) as (r & Hr & ->). cbn [snd].
  destruct (race_invariant_started
              (fun pool w' => quiet kind (snd (start_all tasks w)) w'
                              ∧ Forall (task_preserves (quiet kind)) pool)
              schedule tasks w (resume_at_preserves (quiet kind) _)) as [HR1 Hp1].
  { split; [reflexivity|exact Hp0]. }
  destruct (run_on_invariant
              (fun pool w' => quiet kind (snd (k r (snd (race schedule tasks w)))) w'
                              ∧ Forall (task_preserves (quiet kind)) pool)
              (resume_at_preserves (quiet kind) _)
              (fst (fst (race schedule tasks w))) (snd (fst (race schedule tasks w)))
              (snd (k r (snd (race schedule tasks w)))))
    as (pool' & HR3 & _).
  { split; [reflexivity|exact Hp1]. }
  rewrite <- E0. unfold quiet in *. rewrite HR3, (Hk r), HR1. reflexivity.
Qed.

(** **** Tasks that work on regions of the storage *)

Section Local.

Context (region : string → Prop).















End Local.


(** **** The values of a task *)

Lemma call_returns_now {A} (post : A → Prop) (m : M A) :
  (∀ w x, fst (m w) = Ok x → post x) → call_returns post (now m).
Proof.
  intros H w. unfold now. specialize (H w). destruct (m w) as [[x|e] w']; cbn; auto.
Qed.

Lemma call_returns_and_then {A B} (post : B → Prop) (t : Task A) (k : result A → Async B) :
  (∀ r, call_returns post (k r)) → call_returns post (and_then t k).
Proof.
  intros Hk. induction t as [r|resume IH] using Task_induction.
  - apply Hk.
  - intros w w1. cbn. specialize (IH w1). destruct (resume w1) as [t' w1']. apply IH.
Qed.

Lemma call_returns_abind {A B} (post : B → Prop) (a : Async A) (k : A → Async B) :
  (∀ x, call_returns post (k x)) → call_returns post (abind a k).
Proof.
  intros Hk w. unfold abind. destruct (a w) as [t w1].
  apply call_returns_and_then. intros [x|e]; [apply Hk|].
  apply call_returns_now. discriminate.
Qed.



(** *** The transforms of a directory listing *)

Ltac refining :=
  repeat first
    [ match goal with
      | |- run (now _) _ = _ => apply run_now
      | |- run (later _) _ = _ => apply run_later
      | |- run (abind _ _) _ = _ => rewrite run_abind; apply bind_ext; intros
      | |- run (atry_catch _ _) _ = _ => rewrite run_atry_catch; apply try_catch_ext; intros
      | |- run (match ?x with _ => _ end) _ = _ => destruct x
      end ].

Ltac stepping_with tac :=
  repeat first
    [ tac
    | match goal with
      | |- preserves (quiet ?kind) ?m => change (silent kind m); silence_with tac
      | |- call_preserves _ (abind _ _) =>
          apply call_preserves_abind; [apply _| |intros ?]
      | |- call_preserves _ (atry_catch _ _) =>
          apply call_preserves_atry_catch; [apply _| |intros ?]
      | |- call_preserves _ (later _) => apply call_preserves_later; [apply _|]
      | |- call_preserves _ (now _) => apply call_preserves_now; [apply _|]
      | |- call_preserves _ (match ?x with _ => _ end) => destruct x
      end ].

Section Transforms.

Context (env : Collaborators).

(** The calls with their [await]s marked are the functions themselves
    when nothing else is going on. *)
Lemma run_convertToJpeg_async (filepath : string) (asThumbnail : bool) (w : World) :
  run (convertToJpeg_async env filepath asThumbnail) w
  = convertToJpeg env filepath asThumbnail w.
Proof.
  unfold convertToJpeg_async, convertToJpeg, execFile_async, execFile. cbv zeta.
  refining.
Qed.

Lemma run_addFileToBuffer_async (pathname filename : string)
    (dataFormat : option DataFormat) (w : World) :
  run (addFileToBuffer_async env pathname filename dataFormat) w
  = addFileToBuffer env pathname filename dataFormat w.
Proof.
  unfold addFileToBuffer_async, addFileToBuffer, compressFile_async, compressFile.
  cbv zeta. refining. apply run_convertToJpeg_async.
Qed.


Lemma quiet_convertToJpeg_async (kind : event → bool) (filepath : string)
    (asThumbnail : bool) :
  kind (Exec "dcmj2pnm" (single_frame_args filepath asThumbnail)) = false →
  kind (Exec "dcmj2pnm" (all_frames_args filepath asThumbnail)) = false →
  call_preserves (quiet kind) (convertToJpeg_async env filepath asThumbnail).
Proof.
  intros H1 H2. unfold convertToJpeg_async, execFile_async. cbv zeta.
  stepping_with ltac:(first [ apply silent_emit; [exact H1] | apply silent_emit; [exact H2] ]).
Qed.

Lemma quiet_addFileToBuffer_async (kind : event → bool) (pathname filename : string)
    (dataFormat : option DataFormat) :
  kind (Compress (path_join env pathname filename) pathname (target_syntax dataFormat))
    = false →
  kind (LogError ["Failed to compress"; path_join env pathname filename]) = false →
  (dataFormat = Some rendered → ∀ args, kind (Exec "dcmj2pnm" args) = false) →
  call_preserves (quiet kind) (addFileToBuffer_async env pathname filename dataFormat).
Proof.
  intros HC HL HE.
  unfold addFileToBuffer_async, compressFile_async, logger_error, parseDicom. cbv zeta.
  fold (target_syntax dataFormat).
  stepping_with ltac:(first [ apply silent_emit; assumption
                            | apply quiet_convertToJpeg_async; apply HE; reflexivity ]).
Qed.

Lemma quiet_transform (kind : event → bool) (cache : CacheCheck) (pathname : string)
    (dataFormat : option DataFormat) (file : string) :
  (∀ a b c, kind (Compress a b c) = false) →
  (∀ a, kind (LogError ["Failed to compress"; a]) = false) →
  (dataFormat = Some rendered → ∀ args, kind (Exec "dcmj2pnm" args) = false) →
  call_preserves (quiet kind) (transform env cache pathname dataFormat file).
Proof.
  intros HC HL HE. unfold transform.
  stepping_with ltac:(apply quiet_addFileToBuffer_async; auto).
Qed.

Lemma silent_run (kind : event → bool) {A} (a : Async A) :
  call_preserves (quiet kind) a → silent kind (run a).
Proof.
  intros H w. unfold run. destruct (H w) as [HR Ht]. destruct (a w) as [t w1].
  cbn [fst snd] in *. pose proof (complete_preserves (quiet kind) t w1 Ht) as HR'.
  unfold quiet in *. congruence.
Qed.

(** A call that starts with a call of a collaborator and is quiet
    afterwards. *)
Lemma call_emits_then (kind : event → bool) (e : event) {A} (a rest : Async A) :
  (∀ w, a w = rest (snd (emit e w))) →
  call_preserves (quiet kind) rest →
  ∀ w, events kind (trace (snd (a w))) = events kind (trace w) ++ events kind [e]
       ∧ task_preserves (quiet kind) (fst (a w)).
Proof.
  intros E H w. rewrite E. destruct (H (snd (emit e w))) as [HR Ht].
  split; [|exact Ht]. unfold quiet in HR. rewrite HR. cbn [emit snd trace].
  apply events_app.
Qed.

(** A race of quiet tasks is quiet up to the settlement and after what
    follows it. *)
Lemma await_all_quiet (kind : event → bool) {A B} (schedule : list nat)
    (tasks : list (Async A)) (k : result (list A) → M B) (w : World) :
  Forall (call_preserves (quiet kind)) tasks →
  ∃ r w1,
    fst (Promise_all schedule tasks w) = r ∧
    quiet kind w w1 ∧
    fst (await_all schedule tasks k w) = fst (k r w1) ∧
    quiet kind (snd (k r w1)) (snd (await_all schedule tasks k w)).
Proof.
  intros Ht.
  destruct (await_all_settled schedule tasks k w) as (r & Hr & ->). cbn [fst snd].
  exists r, (snd (race schedule tasks w)).
  destruct (race_invariant
              (fun pool w' => quiet kind w w' ∧ Forall (task_preserves (quiet kind)) pool)
              (resume_at_preserves (quiet kind) w) schedule tasks w) as [HR1 Hp1].
  { split; [reflexivity|]. apply Forall_fmap. exact Ht. }
  destruct (run_on_invariant
              (fun pool w' => quiet kind (snd (k r (snd (race schedule tasks w)))) w'
                              ∧ Forall (task_preserves (quiet kind)) pool)
              (resume_at_preserves (quiet kind) _)
              (fst (fst (race schedule tasks w))) (snd (fst (race schedule tasks w)))
              (snd (k r (snd (race schedule tasks w)))))
    as (pool' & HR3 & _).
  { split; [reflexivity|exact Hp1]. }
  rewrite Promise_all_settled in Hr. injection Hr as Hr. auto.
Qed.

End Transforms.

(** **** The transforms on their regions of the storage *)


Section TransformsLocal.

Context (env : Collaborators) (region : string → Prop).



End TransformsLocal.


(** The values of a race are values of its tasks, by position. *)
Lemma Promise_all_returns {A} (post : nat → A → Prop) (schedule : list nat)
    (tasks : list (Async A)) (w : World) (values : list A) :
  (∀ i a, tasks !! i = Some a → call_returns (post i) a) →
  fst (Promise_all schedule tasks w) = Ok values →
  length values = length tasks ∧ ∀ i x, values !! i = Some x → post i x.
Proof.
  intros Hpost Hok.
  pose proof (Promise_all_settled schedule tasks w) as Hs. rewrite Hok in Hs.
  set (Inv := fun (pool : list (Task A)) (w' : World) =>
                length pool = length tasks ∧
                ∀ i t, pool !! i = Some t → task_returns (post i) t).
  assert (∀ i pool w', Inv pool w' →
            Inv (fst (resume_at i pool w')) (snd (resume_at i pool w'))) as Hstep.
  { intros i pool w' [Hlen H]. unfold resume_at.
    destruct (pool !! i) as [[r|resume]|] eqn:Hi; try (split; assumption).
    pose proof (H i _ Hi w') as Ht'. destruct (resume w') as [t' w''].
    cbn [fst snd] in *. split; [rewrite length_insert; exact Hlen|].
    intros j t Hj. destruct (decide (j = i)) as [->|Hne].
    - rewrite list_lookup_insert_eq in Hj by (eapply lookup_lt_Some, Hi).
      injection Hj as <-. exact Ht'.
    - rewrite list_lookup_insert_ne in Hj by congruence. apply (H j t Hj). }
  destruct (race_invariant Inv Hstep schedule tasks w) as [Hlen Hinv].
  - split; [apply length_map|]. intros i t Hi.
    change (map Pending tasks) with (Pending <$> tasks) in Hi.
    rewrite list_lookup_fmap in Hi. specialize (Hpost i). unfold Async in *.
    destruct (tasks !! i) as [a|]; [|discriminate]. injection Hi as <-.
    apply (Hpost a eq_refl).
  - unfold settlement in Hs. destruct (omap rejected _); [|discriminate].
    destruct (mapM fulfilled _) as [values'|] eqn:Hm; [|discriminate].
    injection Hs as <-. apply mapM_Some_1 in Hm. split.
    + rewrite <- Hlen. symmetry. eapply Forall2_length, Hm.
    + intros i x Hx. destruct (Forall2_lookup_r _ _ _ _ _ Hm Hx) as (t & Ht & Hf).
      destruct t as [[y|e]|resume]; try discriminate. injection Hf as ->.
      apply (Hinv i _ Ht).
Qed.

Section Properties.

Context (env : Collaborators).

Lemma truthy_append (s t : string) :
  truthy (Some t) = true → truthy (Some (s +:+ t)) = true.
Proof. destruct s; [trivial | reflexivity]. Qed.

(** *** The renderer *)

Lemma convertToJpeg_unfold (filepath : string) (asThumbnail : bool) (w : World) :
  convertToJpeg env filepath asThumbnail w =
  match try_catch
          (execFile env "dcmj2pnm" (single_frame_args filepath asThumbnail))
          (fun _ => execFile env "dcmj2pnm" (all_frames_args filepath asThumbnail)) w with
  | (Ok _, w') => (probe_outcome (files w') filepath, w')
  | (Throw e, w') => (Throw e, w')
  end.
Proof.
  unfold convertToJpeg, single_frame_args, all_frames_args, bind at 1.
  destruct (try_catch _ _ w) as [[[]|e] w'] eqn:E; [|reflexivity].
  unfold probe_outcome, bind, fileExists, fs_readFile, ret, present.
  destruct (files w' !! (filepath +:+ ".jpg")) as [[]|] eqn:J.
  - rewrite truthy_append by reflexivity. rewrite J. reflexivity.
  - rewrite truthy_append by reflexivity. rewrite J. reflexivity.
  - destruct (files w' !! (filepath +:+ ".0.jpg")) as [[]|] eqn:J0.
    + rewrite truthy_append by reflexivity. rewrite J0. reflexivity.
    + rewrite truthy_append by reflexivity. rewrite J0. reflexivity.
    + reflexivity.
Qed.

Lemma silent_convertToJpeg (kind : event → bool) (filepath : string) (asThumbnail : bool) :
  (∀ file args, kind (Exec file args) = false) →
  silent kind (convertToJpeg env filepath asThumbnail).
Proof.
  intros Hk. unfold convertToJpeg, execFile.
  silence; rewrite ?Hk; try reflexivity.
  all: try (apply silent_emit, Hk).
Qed.

(** Claim C6, as amended.  A render runs the converter once on the single
    frame with output [<path>.jpg].  If that run fails there is exactly one
    more run, with the all-frames flag [+Fa] and with output [<path>] itself
    (not [<path>.jpg]); if this second run fails too, its failure is the
    outcome and nothing else is run.  After a run that succeeded the
    outcome is read off the storage the converter left: the bytes of
    [<path>.jpg] if that file is there, else the bytes of [<path>.0.jpg] if
    that file is there, else absent (no exception). *)
Theorem convertToJpeg_retry_and_probe (filepath : string) (asThumbnail : bool) (w : World) :
  let first := child_process env "dcmj2pnm" (single_frame_args filepath asThumbnail) (files w) in
  let second := child_process env "dcmj2pnm" (all_frames_args filepath asThumbnail) (snd first) in
  let out := convertToJpeg env filepath asThumbnail w in
  (∀ e1, fst first = Throw e1 →
     trace (snd out) = trace w ++ [Exec "dcmj2pnm" (single_frame_args filepath asThumbnail);
                                   Exec "dcmj2pnm" (all_frames_args filepath asThumbnail)]
     ∧ files (snd out) = snd second
     ∧ (∀ e2, fst second = Throw e2 → fst out = Throw e2)) ∧
  (fst first = Ok tt →
     trace (snd out) = trace w ++ [Exec "dcmj2pnm" (single_frame_args filepath asThumbnail)]
     ∧ files (snd out) = snd first) ∧
  (fst first = Ok tt ∨ fst second = Ok tt →
     (∀ b, files (snd out) !! (filepath +:+ ".jpg") = Some (File b) → fst out = Ok (Some b)) ∧
     (∀ b, files (snd out) !! (filepath +:+ ".jpg") = None →
           files (snd out) !! (filepath +:+ ".0.jpg") = Some (File b) → fst out = Ok (Some b)) ∧
     (files (snd out) !! (filepath +:+ ".jpg") = None →
      files (snd out) !! (filepath +:+ ".0.jpg") = None → fst out = Ok None)).
Proof.
  intros first second out. subst out. rewrite convertToJpeg_unfold.
  unfold try_catch, execFile, bind, emit, on_files. cbn [files trace].
  fold first.
  destruct first as [[[]|e1] fs1] eqn:E1; cbn [fst snd files trace] in *.
  - split; [intros ? [=]|]. split; [auto|]. intros _.
    unfold probe_outcome.
    repeat split; intros; repeat match goal with H : _ !! _ = _ |- _ => rewrite H end; reflexivity.
  - fold second. rewrite <- app_assoc. cbn [app].
    destruct second as [[[]|e2] fs2] eqn:E2; cbn [fst snd files trace] in *.
    + split; [intros ? _; repeat split; intros; discriminate|].
      split; [intros [=]|]. intros _.
      unfold probe_outcome.
      repeat split; intros; repeat match goal with H : _ !! _ = _ |- _ => rewrite H end; reflexivity.
    + split; [intros ? _; repeat split; congruence|].
      split; [intros [=]|]. intros [[=]|[=]].
Qed.

(** *** The cache check *)

Lemma fold_left_andb (bs : list bool) (acc : bool) :
  fold_left (fun prev curr => prev && curr) bs acc = acc && foldr andb true bs.
Proof.
  revert acc. induction bs as [|b bs IH]; intros acc; cbn.
  - symmetry. apply andb_true_r.
  - rewrite IH. apply eq_sym, andb_assoc.
Qed.

Lemma check_instances_spec (studyPath : string) (json : list (gmap string QidoAttribute))
    (found : list string) (w : World) :
  Forall (fun instance => carries_value instance = true) json →
  ∃ checks,
    check_instances env studyPath json found w =
      (Ok (checks, found ++ expected_instances json), w) ∧
    foldr andb true checks =
      foldr andb true
        (map (fun id => present (files w) (path_join env studyPath id))
             (expected_instances json)).
Proof.
  intros Hjson. revert found. induction Hjson as [|instance json Hi _ IH]; intros found.
  - exists []. cbn. rewrite app_nil_r. split; reflexivity.
  - cbn [check_instances]. unfold bind, check_instance, expected_instances.
    cbn [omap list_omap]. fold (expected_instances json).
    destruct (instance !! "00080018") as [attribute|] eqn:Ha; cbn [mbind option_bind].
    + unfold carries_value in Hi. rewrite Ha in Hi.
      destruct (Value attribute) as [|id ids] eqn:Hv; [discriminate|].
      cbn [lookup list_lookup]. cbv beta iota delta [bind fileExists ret fst snd].
      destruct (IH (found ++ [id])) as (checks & -> & Hc).
      exists (present (files w) (path_join env studyPath id) :: checks).
      cbn [fst snd]. rewrite <- app_assoc. split; [reflexivity|].
      cbn. rewrite Hc. reflexivity.
    + cbv beta iota delta [bind ret fst snd].
      destruct (IH found) as (checks & -> & Hc).
      exists (true :: checks). split; [reflexivity|]. cbn. exact Hc.
Qed.

Lemma checkCache_directory (study : string) (series sop : option string)
    (studyPath pathname : string) (w : World) (json : list (gmap string QidoAttribute)) :
  (files w !! pathname = None ∨ ∃ entries, files w !! pathname = Some (Directory entries)) →
  metadata_query env IMAGE study (or_empty series) (or_empty sop) = Ok json →
  Forall (fun instance => carries_value instance = true) json →
  checkCache env study series sop studyPath pathname w =
    (Ok {| isDir := true;
           useCache := foldr andb true
                         (map (fun id => present (files w) (path_join env studyPath id))
                              (expected_instances json));
           foundInstances := expected_instances json |},
     {| files := files w;
        trace := trace w ++ [Find IMAGE study (or_empty series) (or_empty sop)] |}).
Proof.
  intros Hdir Hq Hjson.
  assert (checkCache env study series sop studyPath pathname w =
          (json0 <- doFind env IMAGE study (or_empty series) (or_empty sop) ;;
           r <- check_instances env studyPath json0 [] ;;
           ret {| isDir := true;
                  useCache := fold_left (fun prev curr => prev && curr) (fst r) true;
                  foundInstances := snd r |}) w) as ->.
  { unfold checkCache. unfold bind at 1 2. unfold fileExists at 1, present, fs_stat_isDirectory, ret at 1.
    destruct Hdir as [H|[entries H]]; rewrite ?H; reflexivity. }
  unfold doFind, bind, emit, of_result. rewrite Hq. cbn [files trace].
  set (w1 := {| files := files w; trace := _ |}).
  destruct (check_instances_spec studyPath json [] w1 Hjson) as (checks & -> & Hc).
  unfold ret. cbn [fst snd]. rewrite fold_left_andb, Hc. reflexivity.
Qed.

Lemma checkCache_file (study : string) (series sop : option string)
    (studyPath pathname : string) (w : World) (content : Buffer) :
  files w !! pathname = Some (File content) →
  checkCache env study series sop studyPath pathname w =
    (Ok {| isDir := false; useCache := true; foundInstances := [] |}, w).
Proof.
  intros H. unfold checkCache.
  cbv beta iota delta [bind fileExists present fs_stat_isDirectory ret].
  rewrite !H. reflexivity.
Qed.

Lemma silent_check_instances (kind : event → bool) (studyPath : string)
    (json : list (gmap string QidoAttribute)) (found : list string) :
  silent kind (check_instances env studyPath json found).
Proof.
  revert found. induction json as [|instance json IH]; intros found; cbn [check_instances].
  - apply silent_ret.
  - apply silent_bind; [unfold check_instance; silence|].
    intros r. apply silent_bind; [apply IH|]. intros rs. apply silent_ret.
Qed.

Lemma silent_checkCache (kind : event → bool) (study : string) (series sop : option string)
    (studyPath pathname : string) :
  (∀ l a b c, kind (Find l a b c) = false) →
  silent kind (checkCache env study series sop studyPath pathname).
Proof.
  intros HF. unfold checkCache, doFind.
  silence; try (apply silent_emit, HF).
  all: apply silent_check_instances.
Qed.

Lemma checkCache_files (study : string) (series sop : option string)
    (studyPath pathname : string) (w : World) :
  files (snd (checkCache env study series sop studyPath pathname w)) = files w.
Proof.
  assert (∀ json found w, files (snd (check_instances env studyPath json found w)) = files w) as Hci.
  { induction json as [|instance json IH]; intros found w0; cbn [check_instances]; [reflexivity|].
    unfold bind, check_instance.
    destruct (instance !! "00080018") as [a|]; [destruct (Value a !! 0) as [id|]|];
      cbv beta iota delta [bind fileExists ret throw fst snd]; try reflexivity.
    - specialize (IH (found ++ [id]) w0).
      destruct (check_instances env studyPath json (found ++ [id]) w0) as [[]]; exact IH.
    - specialize (IH found w0).
      destruct (check_instances env studyPath json found w0) as [[]]; exact IH. }
  unfold checkCache.
  cbv beta iota delta [bind fileExists present fs_stat_isDirectory ret doFind emit of_result].
  destruct (files w !! pathname) as [[]|] eqn:H; rewrite ?H; cbn [files trace snd]; try reflexivity.
  all: destruct (metadata_query env IMAGE study (or_empty series) (or_empty sop)) as [json|];
    [|reflexivity].
  all: match goal with |- context [check_instances _ _ ?j [] ?w1] =>
         specialize (Hci j [] w1);
         destruct (check_instances _ _ j [] w1) as [[]]; exact Hci end.
Qed.

(** A miss is a miss of a directory scope. *)
Lemma checkCache_miss (study : string) (series sop : option string)
    (studyPath pathname : string) (w w1 : World) (cache : CacheCheck) :
  checkCache env study series sop studyPath pathname w = (Ok cache, w1) →
  useCache cache = false →
  isDir cache = true ∧
  (files w !! pathname = None ∨ ∃ entries, files w !! pathname = Some (Directory entries)).
Proof.
  unfold checkCache.
  cbv beta iota delta [bind fileExists present fs_stat_isDirectory ret].
  destruct (files w !! pathname) as [[content|entries]|] eqn:H; rewrite ?H.
  - intros [= <- <-]. discriminate.
  - destruct (doFind _ _ _ _ _ w) as [[json|] w']; [|discriminate].
    destruct (check_instances _ _ _ _ w') as [[r|] w'']; [|discriminate].
    intros [= <- <-] _. split; [reflexivity|]. right. eauto.
  - destruct (doFind _ _ _ _ _ w) as [[json|] w']; [|discriminate].
    destruct (check_instances _ _ _ _ w') as [[r|] w'']; [|discriminate].
    intros [= <- <-] _. split; [reflexivity|]. left. reflexivity.
Qed.

(** *** The fetch trigger *)

Lemma ensureFetched_hit (pathname study : string) (series sop : option string)
    (level : QUERY_LEVEL) (w : World) :
  ensureFetched env true pathname study series sop level w = (Ok tt, w).
Proof. reflexivity. Qed.

Lemma ensureFetched_events (kind : event → bool) (hit : bool) (pathname study : string)
    (series sop : option string) (level : QUERY_LEVEL) (w : World) :
  (∀ m, kind (LogInfo m) = false) →
  events kind (trace (snd (ensureFetched env hit pathname study series sop level w))) =
  events kind (trace w) ++
  (if hit then []
   else events kind [Fetch study (or_empty series) (or_empty sop) level]).
Proof.
  intros HL. destruct hit; cbn [ensureFetched negb].
  - unfold ret. cbn. symmetry. apply app_nil_r.
  - unfold ensureFetched, negb, waitOrFetchData, logger_info.
    cbv beta iota delta [bind emit on_files]. cbn [files trace].
    destruct (fetch_orchestrator env _ _ _ _ _) as [[[]|e] fs]; cbn [snd trace].
    all: rewrite !events_app; unfold events at 2; rewrite filter_cons_False by (rewrite HL; discriminate).
    all: rewrite filter_nil, app_nil_r; reflexivity.
Qed.

(** *** The responses *)

Lemma silent_thumbnail_response (kind : event → bool) (cache : CacheCheck)
    (pathname : string) :
  (∀ file args, kind (Exec file args) = false) →
  silent kind (thumbnail_response env cache pathname).
Proof.
  intros HE. unfold thumbnail_response.
  silence_with ltac:(apply silent_convertToJpeg; assumption).
Qed.

(** The events of a kind that the transforms do not add: a multipart
    response adds the log line of its failure, if it fails, and no other. *)
Lemma multipart_response_events (kind : event → bool) (cache : CacheCheck)
    (study studyPath pathname filename : string) (dataFormat : option DataFormat)
    (w : World) :
  (∀ a b c, kind (Compress a b c) = false) →
  (∀ a, kind (LogError ["Failed to compress"; a]) = false) →
  (dataFormat = Some rendered → ∀ args, kind (Exec "dcmj2pnm" args) = false) →
  events kind
    (trace (snd (multipart_response env cache study studyPath pathname filename
                   dataFormat w)))
  = events kind (trace w)
    ++ match fst (multipart_response env cache study studyPath pathname filename
                    dataFormat w) with
       | Ok _ => []
       | Throw _ => events kind [LogError ["failed to process " +:+ pathname]]
       end.
Proof.
  intros HC HL HE. unfold multipart_response, logger_error, settle_then. cbv zeta.
  assert (∀ (error : exn) (w0 w' : World),
            quiet kind w0 w' →
            events kind
              (trace (snd ((emit (LogError ["failed to process " +:+ pathname]) ;;;
                            @throw WadoRsResponse error) w')))
            = events kind (trace w0)
              ++ events kind [LogError ["failed to process " +:+ pathname]]) as Hfailed.
  { intros error w0 w' Hq. unfold bind, emit, throw. cbn [snd trace].
    unfold quiet in Hq. rewrite events_app, Hq. reflexivity. }
  destruct (isDir cache).
  - unfold fs_readdir.
    destruct (files w !! pathname) as [[content|entries]|];
      try (apply Hfailed; reflexivity).
    match goal with
    | |- context [await_all ?schedule ?tasks ?k w] =>
        destruct (await_all_quiet kind schedule tasks k w) as (r & w1 & _ & Hq1 & -> & Hq2)
    end.
    { apply Forall_map, Forall_forall. intros file _. apply quiet_transform; assumption. }
    rewrite Hq2. destruct r as [buffers|error].
    + cbn. rewrite Hq1. symmetry. apply app_nil_r.
    + apply Hfailed, Hq1.
  - pose proof (silent_run kind _
                  (quiet_addFileToBuffer_async env kind studyPath filename dataFormat
                     (HC _ _ _) (HL _) HE) w) as Hq.
    unfold run in Hq. fold (run (addFileToBuffer_async env studyPath filename dataFormat) w) in Hq.
    rewrite run_addFileToBuffer_async in Hq.
    destruct (addFileToBuffer env studyPath filename dataFormat w) as [[part|error] w1].
    + cbn in *. rewrite Hq. symmetry. apply app_nil_r.
    + apply Hfailed, Hq.
Qed.

Lemma silent_multipart_response (kind : event → bool) (cache : CacheCheck)
    (study studyPath pathname filename : string) (dataFormat : option DataFormat) :
  (∀ file args, kind (Exec file args) = false) →
  (∀ a b c, kind (Compress a b c) = false) →
  (∀ m, kind (LogError m) = false) →
  silent kind (multipart_response env cache study studyPath pathname filename dataFormat).
Proof.
  intros HE HC HL w. rewrite multipart_response_events by auto.
  destruct (fst (multipart_response env cache study studyPath pathname filename
                   dataFormat w)).
  - apply app_nil_r.
  - unfold events at 2. rewrite filter_cons_False by (rewrite HL; discriminate).
    rewrite filter_nil. apply app_nil_r.
Qed.

(** For a file the response is the [try] block around the one transform. *)
Lemma multipart_response_file (cache : CacheCheck)
    (study studyPath pathname filename : string) (dataFormat : option DataFormat)
    (w : World) :
  isDir cache = false →
  multipart_response env cache study studyPath pathname filename dataFormat w
  = try_catch
      (part <- addFileToBuffer env studyPath filename dataFormat ;;
       ret (assemble study dataFormat [Some part]))
      (fun error => logger_error ["failed to process " +:+ pathname] ;;; throw error) w.
Proof.
  intros Hfile. unfold multipart_response, settle_then, try_catch. cbv zeta.
  rewrite Hfile. unfold bind at 2.
  destruct (addFileToBuffer env studyPath filename dataFormat w) as [[part|error] w'];
    reflexivity.
Qed.

Lemma doWadoRs_unfold (args : WadoRsArgs) (w w1 : World) (cache : CacheCheck) :
  checkCache env (studyInstanceUid args) (seriesInstanceUid args) (sopInstanceUid args)
    (studyPath_of env (studyInstanceUid args))
    (pathname_of env (studyInstanceUid args) (sopInstanceUid args)) w = (Ok cache, w1) →
  doWadoRs env args w =
  match ensureFetched env (useCache cache)
          (pathname_of env (studyInstanceUid args) (sopInstanceUid args))
          (studyInstanceUid args) (seriesInstanceUid args) (sopInstanceUid args)
          (queryLevel_of (seriesInstanceUid args)) w1 with
  | (Ok _, w2) =>
      match dataFormat args with
      | Some thumbnail =>
          thumbnail_response env cache
            (pathname_of env (studyInstanceUid args) (sopInstanceUid args)) w2
      | format =>
          multipart_response env cache (studyInstanceUid args)
            (studyPath_of env (studyInstanceUid args))
            (pathname_of env (studyInstanceUid args) (sopInstanceUid args))
            (filename_of (sopInstanceUid args)) format w2
      end
  | (Throw e, w2) => (Throw e, w2)
  end.
Proof.
  intros H. unfold doWadoRs. cbv zeta. unfold bind at 1. rewrite H.
  unfold bind at 1.
  destruct (ensureFetched _ _ _ _ _ _ _ w1) as [[[]|e] w2]; [|reflexivity].
  destruct (dataFormat args) as [[]|]; reflexivity.
Qed.

(** Claim C2.  Once the cache check has returned, the request calls the
    fetch orchestrator exactly once when the check missed and not at all
    when it hit, and the one call has the arguments of the whole scope:
    the study, [seriesUid ?? ''], [instanceUid ?? ''] and the query level.
    This is so on every path through the rest of the request, whether the
    fetch or a later step fails or not. *)
Theorem doWadoRs_fetches (args : WadoRsArgs) (w w1 : World) (cache : CacheCheck) :
  checkCache env (studyInstanceUid args) (seriesInstanceUid args) (sopInstanceUid args)
    (studyPath_of env (studyInstanceUid args))
    (pathname_of env (studyInstanceUid args) (sopInstanceUid args)) w = (Ok cache, w1) →
  events is_Fetch (trace (snd (doWadoRs env args w))) =
  events is_Fetch (trace w) ++
  (if useCache cache then []
   else [Fetch (studyInstanceUid args) (or_empty (seriesInstanceUid args))
               (or_empty (sopInstanceUid args)) (queryLevel_of (seriesInstanceUid args))]).
Proof.
  intros H. rewrite (doWadoRs_unfold _ _ _ _ H).
  pose proof (silent_checkCache is_Fetch (studyInstanceUid args) (seriesInstanceUid args)
                (sopInstanceUid args) (studyPath_of env (studyInstanceUid args))
                (pathname_of env (studyInstanceUid args) (sopInstanceUid args))
                (fun _ _ _ _ => eq_refl) w) as Hc.
  rewrite H in Hc. cbn [snd] in Hc.
  pose proof (ensureFetched_events is_Fetch (useCache cache)
                (pathname_of env (studyInstanceUid args) (sopInstanceUid args))
                (studyInstanceUid args) (seriesInstanceUid args) (sopInstanceUid args)
                (queryLevel_of (seriesInstanceUid args)) w1 (fun _ => eq_refl)) as Hf.
  rewrite Hc in Hf.
  destruct (ensureFetched _ _ _ _ _ _ _ w1) as [[[]|e] w2]; cbn [snd] in Hf.
  - assert (∀ A (m : M A), silent is_Fetch m → events is_Fetch (trace (snd (m w2))) =
              events is_Fetch (trace w) ++
              (if useCache cache then []
               else [Fetch (studyInstanceUid args) (or_empty (seriesInstanceUid args))
                       (or_empty (sopInstanceUid args)) (queryLevel_of (seriesInstanceUid args))])) as Hs.
    { intros A m Hm. rewrite Hm, Hf. destruct (useCache cache); reflexivity. }
    destruct (dataFormat args) as [[]|].
    5: apply Hs, silent_multipart_response; reflexivity.
    4: apply Hs, silent_thumbnail_response; reflexivity.
    all: apply Hs, silent_multipart_response; reflexivity.
  - cbn [snd]. rewrite Hf. destruct (useCache cache); reflexivity.
Qed.

(** Claim C1.  In a directory scope (the target path is a directory or does
    not exist), when the metadata query answers, the cache check records
    the expected instances and its hit value is the conjunction, starting
    from true, of the existence checks of the expected instances under the
    study directory.  So it is true for an empty expected set, and false as
    soon as one expected file is missing, whatever the others are. *)
Theorem checkCache_directory_scope (study : string) (series sop : option string)
    (w : World) (json : list (gmap string QidoAttribute)) :
  let studyPath := studyPath_of env study in
  let pathname := pathname_of env study sop in
  let expected := expected_instances json in
  let hit :=
    foldr andb true
      (map (fun id => present (files w) (path_join env studyPath id)) expected) in
  (files w !! pathname = None ∨ ∃ entries, files w !! pathname = Some (Directory entries)) →
  metadata_query env IMAGE study (or_empty series) (or_empty sop) = Ok json →
  Forall (fun instance => carries_value instance = true) json →
  fst (checkCache env study series sop studyPath pathname w) =
    Ok {| isDir := true; useCache := hit; foundInstances := expected |}
  ∧ (expected = [] → hit = true)
  ∧ (∀ id, id ∈ expected → files w !! path_join env studyPath id = None → hit = false).
Proof.
  intros studyPath pathname expected hit Hdir Hq Hjson.
  split; [|split].
  - rewrite (checkCache_directory study series sop studyPath pathname w json Hdir Hq Hjson).
    reflexivity.
  - subst hit. intros ->. reflexivity.
  - subst hit. intros id Hid Hmiss.
    induction expected as [|id' expected' IH]; [inversion Hid|].
    cbn [map foldr]. apply elem_of_cons in Hid as [<-|Hid].
    + unfold present at 1. rewrite Hmiss. reflexivity.
    + rewrite IH by assumption. apply andb_false_r.
Qed.

Lemma events_longer (t t1 : list event) (e : event) : t1 = t ++ [e] → t1 ≠ t.
Proof.
  intros -> Heq. apply (f_equal List.length) in Heq.
  rewrite length_app in Heq. cbn in Heq. lia.
Qed.

(** Claim C9.  When the target path is a file on disk the cache check takes
    the single-object branch with a hit, and the request calls no fetch.
    A miss is always a miss of a directory scope: the target path is then a
    directory or does not exist. *)
Theorem file_target_never_fetches (args : WadoRsArgs) (w : World) :
  let study := studyInstanceUid args in
  let pathname := pathname_of env study (sopInstanceUid args) in
  let check :=
    checkCache env study (seriesInstanceUid args) (sopInstanceUid args)
      (studyPath_of env study) pathname w in
  (∀ content, files w !! pathname = Some (File content) →
     fst check = Ok {| isDir := false; useCache := true; foundInstances := [] |}
     ∧ events is_Fetch (trace (snd (doWadoRs env args w))) = events is_Fetch (trace w))
  ∧ (∀ cache, fst check = Ok cache → useCache cache = false →
       isDir cache = true
       ∧ events is_Fetch (trace (snd (doWadoRs env args w))) ≠ events is_Fetch (trace w)
       ∧ (files w !! pathname = None
          ∨ ∃ entries, files w !! pathname = Some (Directory entries))).
Proof.
  intros study pathname check. split.
  - intros content Hfile.
    pose proof (checkCache_file study (seriesInstanceUid args) (sopInstanceUid args)
                  (studyPath_of env study) pathname w content Hfile) as Hc.
    subst check. rewrite Hc. split; [reflexivity|].
    rewrite (doWadoRs_unfold args w w _ Hc). cbn [useCache].
    rewrite ensureFetched_hit.
    destruct (dataFormat args) as [[]|].
    4: apply silent_thumbnail_response; reflexivity.
    all: apply silent_multipart_response; reflexivity.
  - intros cache Hc Hmiss. subst check.
    destruct (checkCache _ _ _ _ _ _ w) as [r w1] eqn:E. cbn [fst] in Hc. subst r.
    destruct (checkCache_miss _ _ _ _ _ _ _ _ E Hmiss) as [Hd Hp].
    split; [exact Hd|]. split; [|exact Hp].
    pose proof (silent_checkCache is_Fetch study (seriesInstanceUid args)
                  (sopInstanceUid args) (studyPath_of env study) pathname
                  (fun _ _ _ _ => eq_refl) w) as Hs.
    rewrite E in Hs. cbn [snd] in Hs.
    rewrite (doWadoRs_unfold args w w1 _ E). rewrite Hmiss.
    pose proof (ensureFetched_events is_Fetch false pathname study (seriesInstanceUid args)
                  (sopInstanceUid args) (queryLevel_of (seriesInstanceUid args)) w1
                  (fun _ => eq_refl)) as Hf.
    fold study pathname.
    destruct (ensureFetched _ _ _ _ _ _ _ w1) as [[[]|e] w2]; cbn [snd] in Hf.
    + assert (∀ A (m : M A), silent is_Fetch m →
                events is_Fetch (trace (snd (m w2))) ≠ events is_Fetch (trace w)) as Hne.
      { intros A m Hm. rewrite Hm, Hf, Hs. eapply events_longer. reflexivity. }
      destruct (dataFormat args) as [[]|].
      4: apply Hne, silent_thumbnail_response; reflexivity.
      all: apply Hne, silent_multipart_response; reflexivity.
    + cbn [snd]. rewrite Hf, Hs. eapply events_longer. reflexivity.
Qed.

(** *** The object transcoder *)

(** The normalization step of [addFileToBuffer] never fails; it leaves the
    storage the transcoder left. *)
Lemma normalize_step (filepath pathname : string) (transferSyntax : option string)
    (w : World) :
  ∃ t,
    try_catch (compressFile env filepath pathname transferSyntax)
              (fun _ => logger_error ["Failed to compress"; filepath]) w =
    (Ok tt, {| files := snd (transcoder env filepath pathname transferSyntax (files w));
               trace := t |}).
Proof.
  unfold try_catch, compressFile, logger_error. cbv beta iota delta [bind emit on_files].
  cbn [files trace].
  destruct (transcoder env filepath pathname transferSyntax (files w)) as [[[]|e] fs];
    cbn [files trace snd]; eauto.
Qed.

(** Claim C3.  For the formats [pixelData] and [bulkData], when the object
    is readable after normalization, the parser accepts it and its element
    table has the Pixel Data element [x7fe00010] with an offset and length
    inside the parsed byte buffer, the part is the header line
    [Content-Type:application/octet-stream;] CRLF, a blank line, the bytes
    of the parsed buffer from the element's offset for the element's
    length, and a CRLF. *)
Theorem addFileToBuffer_pixelData (pathname filename : string) (format : DataFormat)
    (w : World) (data : Buffer) (dataset : DataSet) (pixelDataElement : Element.t) :
  let filepath := path_join env pathname filename in
  format = pixelData ∨ format = bulkData →
  snd (transcoder env filepath pathname (Some "1.2.840.10008.1.2") (files w)) !! filepath
    = Some (File data) →
  dicomParser env data = Ok dataset →
  elements dataset !! "x7fe00010" = Some pixelDataElement →
  Element.dataOffset pixelDataElement + Element.length pixelDataElement
    ≤ List.length (byteArray_buffer dataset) →
  fst (addFileToBuffer env pathname filename (Some format) w) =
    Ok (Buffer_from ("Content-Type:application/octet-stream;" +:+ term)
        ++ Buffer_from term
        ++ take (Element.length pixelDataElement)
                (drop (Element.dataOffset pixelDataElement) (byteArray_buffer dataset))
        ++ Buffer_from term).
Proof.
  intros filepath Hformat Hfile Hparse Helement Hbounds.
  unfold addFileToBuffer. cbv beta iota zeta. fold filepath. unfold bind at 1.
  destruct (normalize_step filepath pathname (Some "1.2.840.10008.1.2") w) as [t Hn].
  rewrite Hn. unfold bind at 1, fs_readFile at 1. cbn [files]. rewrite Hfile.
  assert (Buffer_from_arrayBuffer (byteArray_buffer dataset)
            (Element.dataOffset pixelDataElement) (Element.length pixelDataElement)
          = Ok (take (Element.length pixelDataElement)
                  (drop (Element.dataOffset pixelDataElement) (byteArray_buffer dataset)))) as Hview.
  { unfold Buffer_from_arrayBuffer.
    destruct (Nat.ltb_spec (List.length (byteArray_buffer dataset))
                (Element.dataOffset pixelDataElement)); [lia|].
    destruct (Nat.ltb_spec (List.length (byteArray_buffer dataset)
                            - Element.dataOffset pixelDataElement)
                (Element.length pixelDataElement)); [lia|]. reflexivity. }
  destruct Hformat as [-> | ->].
  all: cbv beta iota delta [bind parseDicom of_result ret].
  all: rewrite Hparse, Helement, Hview; reflexivity.
Qed.

(** The rendered format: what the part is made of. *)
Lemma addFileToBuffer_rendered (pathname filename : string) (w : World) (data : Buffer) :
  let filepath := path_join env pathname filename in
  snd (transcoder env filepath pathname (Some "1.2.840.10008.1.2") (files w)) !! filepath
    = Some (File data) →
  ∃ w1, files w1 = snd (transcoder env filepath pathname (Some "1.2.840.10008.1.2") (files w)) ∧
  addFileToBuffer env pathname filename (Some rendered) w =
  match convertToJpeg env filepath false w1 with
  | (Ok returnData, w2) =>
      (Buffer_concat [Some (Buffer_from ("Content-Type:image/jpeg;" +:+ term));
                      Some (Buffer_from term); returnData; Some (Buffer_from term)], w2)
  | (Throw e, w2) => (Throw e, w2)
  end.
Proof.
  intros filepath Hfile.
  destruct (normalize_step filepath pathname (Some "1.2.840.10008.1.2") w) as [t Hn].
  exists {| files := snd (transcoder env filepath pathname (Some "1.2.840.10008.1.2") (files w));
            trace := t |}.
  split; [reflexivity|].
  unfold addFileToBuffer. cbv beta iota zeta. fold filepath. unfold bind at 1. rewrite Hn.
  unfold bind at 1, fs_readFile at 1. cbn [files]. rewrite Hfile.
  unfold bind at 1. unfold bind at 1.
  destruct (convertToJpeg env filepath false _) as [[returnData|e] w2]; reflexivity.
Qed.

(** When the renderer signals absent, the rendered transform raises: the
    array handed to [Buffer.concat] holds [undefined]. *)
Lemma addFileToBuffer_rendered_absent (pathname filename : string) (w : World)
    (data : Buffer) :
  let filepath := path_join env pathname filename in
  snd (transcoder env filepath pathname (Some "1.2.840.10008.1.2") (files w)) !! filepath
    = Some (File data) →
  (∀ w1, files w1 = snd (transcoder env filepath pathname (Some "1.2.840.10008.1.2") (files w)) →
         fst (convertToJpeg env filepath false w1) = Ok None) →
  fst (addFileToBuffer env pathname filename (Some rendered) w) =
    Throw (TypeError "list argument must be an instance of Buffer or Uint8Array").
Proof.
  intros filepath Hfile Habsent.
  destruct (addFileToBuffer_rendered pathname filename w data Hfile) as (w1 & Hw1 & ->).
  specialize (Habsent w1 Hw1). fold filepath.
  destruct (convertToJpeg env filepath false w1) as [[[b|]|e] w2]; cbn in Habsent; try discriminate.
  reflexivity.
Qed.

(** *** The multipart assembler *)

Lemma assemble_buffer (boundary : string) (dataFormat : option DataFormat)
    (buffers : list (option Buffer)) :
  buffer (assemble boundary dataFormat buffers) =
  concat (map (fun part => opening boundary ++ part) (omap id buffers)) ++ closing boundary.
Proof.
  unfold assemble. cbn [buffer]. rewrite concat_app. cbn [concat]. rewrite app_nil_r.
  fold (closing boundary). f_equal.
  change (Buffer_from ("--" +:+ boundary +:+ term)) with (opening boundary).
  enough (∀ acc : list Buffer,
            concat (fold_left
                      (fun (buffArray : list Buffer) (buff : option Buffer) =>
                         match buff with
                         | Some buff => buffArray ++ [opening boundary; buff]
                         | None => buffArray
                         end)
                      (filter (fun b : option Buffer => is_Some b) buffers) acc)
            = concat acc ++ concat (map (fun part => opening boundary ++ part) (omap id buffers)))
    as H by apply (H []).
  induction buffers as [|[part|] buffers IH]; intros acc.
  - cbn. symmetry. apply app_nil_r.
  - rewrite filter_cons_True by eauto. cbn [fold_left omap list_omap id map concat].
    rewrite IH, concat_app. cbn [concat]. rewrite app_nil_r, <- !app_assoc. reflexivity.
  - rewrite filter_cons_False by (intros [? [=]]). cbn [omap list_omap id]. apply IH.
Qed.

Lemma multipart_type_cases (dataFormat : option DataFormat) :
  multipart_type dataFormat =
  match dataFormat with
  | Some rendered => "image/jpeg"
  | Some pixelData | Some bulkData => "application/octet-stream"
  | _ => "application/dicom"
  end.
Proof. destruct dataFormat as [[]|]; reflexivity. Qed.

(** A transform gives a part exactly for an expected instance. *)
Lemma transform_returns (cache : CacheCheck) (pathname : string)
    (dataFormat : option DataFormat) (file : string) :
  call_returns (fun buff : option Buffer => is_Some buff ↔ file ∈ foundInstances cache)
    (transform env cache pathname dataFormat file).
Proof.
  unfold transform. destruct (bool_decide (file ∈ foundInstances cache)) eqn:Hin.
  - apply bool_decide_eq_true in Hin. apply call_returns_abind. intros part.
    apply call_returns_now. intros w x [= <-]. split; eauto.
  - apply bool_decide_eq_false in Hin. apply call_returns_now. intros w x [= <-].
    split; [intros [? [=]]|contradiction].
Qed.

(** What a multipart response is made of. *)
Lemma multipart_response_inv (cache : CacheCheck)
    (study studyPath pathname filename : string) (dataFormat : option DataFormat)
    (w : World) (response : WadoRsResponse) :
  fst (multipart_response env cache study studyPath pathname filename dataFormat w)
    = Ok response →
  ∃ buffers,
    response = assemble study dataFormat buffers ∧
    if isDir cache then
      ∃ entries,
        files w !! pathname = Some (Directory entries) ∧
        fst (Promise_all (completion_order env entries)
               (map (transform env cache pathname dataFormat) entries) w) = Ok buffers
    else
      ∃ part,
        fst (addFileToBuffer env studyPath filename dataFormat w) = Ok part ∧
        buffers = [Some part].
Proof.
  unfold multipart_response, settle_then. cbv zeta. destruct (isDir cache).
  - unfold fs_readdir.
    destruct (files w !! pathname) as [[content|entries]|] eqn:Hp; try discriminate.
    destruct (await_all_settled (completion_order env entries)
                (map (transform env cache pathname dataFormat) entries)
                (fun settled : result (list (option Buffer)) =>
                   match settled with
                   | Ok buffers => ret (assemble study dataFormat buffers)
                   | Throw error =>
                       logger_error ["failed to process " +:+ pathname] ;;; throw error
                   end) w) as (r & Hr & ->).
    rewrite Promise_all_settled in Hr. injection Hr as <-.
    destruct (fst (Promise_all (completion_order env entries)
                     (map (transform env cache pathname dataFormat) entries) w))
      as [buffers|e] eqn:HP; [|discriminate].
    intros [= <-]. eauto.
  - destruct (addFileToBuffer env studyPath filename dataFormat w) as [[part|e] wb];
      [|discriminate].
    intros [= <-]. eauto.
Qed.

(** *** The whole request *)

Lemma doWadoRs_inv (args : WadoRsArgs) (w : World) (response : WadoRsResponse) :
  fst (doWadoRs env args w) = Ok response →
  ∃ cache w1 w2 w3,
    checkCache env (studyInstanceUid args) (seriesInstanceUid args) (sopInstanceUid args)
      (studyPath_of env (studyInstanceUid args))
      (pathname_of env (studyInstanceUid args) (sopInstanceUid args)) w = (Ok cache, w1) ∧
    ensureFetched env (useCache cache)
      (pathname_of env (studyInstanceUid args) (sopInstanceUid args))
      (studyInstanceUid args) (seriesInstanceUid args) (sopInstanceUid args)
      (queryLevel_of (seriesInstanceUid args)) w1 = (Ok tt, w2) ∧
    match dataFormat args with
    | Some thumbnail =>
        thumbnail_response env cache
          (pathname_of env (studyInstanceUid args) (sopInstanceUid args)) w2
    | format =>
        multipart_response env cache (studyInstanceUid args)
          (studyPath_of env (studyInstanceUid args))
          (pathname_of env (studyInstanceUid args) (sopInstanceUid args))
          (filename_of (sopInstanceUid args)) format w2
    end = (Ok response, w3).
Proof.
  intros H.
  destruct (checkCache env (studyInstanceUid args) (seriesInstanceUid args)
              (sopInstanceUid args) (studyPath_of env (studyInstanceUid args))
              (pathname_of env (studyInstanceUid args) (sopInstanceUid args)) w)
    as [[cache|e] w1] eqn:Hc.
  2: { unfold doWadoRs in H. cbv zeta in H. unfold bind at 1 in H. rewrite Hc in H.
       discriminate. }
  rewrite (doWadoRs_unfold args w w1 cache Hc) in H.
  destruct (ensureFetched _ _ _ _ _ _ _ w1) as [[[]|e] w2] eqn:Hf; [|discriminate].
  exists cache, w1, w2.
  match type of H with fst ?x = _ => destruct x as [r w3] eqn:Hr end.
  cbn in H. subst r. exists w3. auto.
Qed.

(** Claim C4.  A response to a request that is not for a thumbnail is
    assembled, with the study UID as the boundary [b], from the buffers that
    the request has produced after the cache check and the fetch step: in a
    directory scope the values of [Promise.all] over the transforms of the
    listed entries, with a buffer exactly at the positions of the expected
    instances; for a file the one transform of it.  The body is, for every
    buffer that is there and in their order, the line [--b] CRLF followed by
    the buffer, and then the closing line [--b--] CRLF; with no buffer there
    the body is the closing line alone.  The content type is
    [multipart/related;type='T';boundary=b] with [T] [image/jpeg] for
    [rendered], [application/octet-stream] for [pixelData] and [bulkData],
    and [application/dicom] otherwise. *)
Theorem multipart_body (args : WadoRsArgs) (w : World) (response : WadoRsResponse) :
  let boundary := studyInstanceUid args in
  let studyPath := studyPath_of env (studyInstanceUid args) in
  let pathname := pathname_of env (studyInstanceUid args) (sopInstanceUid args) in
  let type :=
    match dataFormat args with
    | Some rendered => "image/jpeg"
    | Some pixelData | Some bulkData => "application/octet-stream"
    | _ => "application/dicom"
    end in
  dataFormat args ≠ Some thumbnail →
  fst (doWadoRs env args w) = Ok response →
  ∃ (cache : CacheCheck) (w1 w2 : World) (buffers : list (option Buffer)),
    checkCache env (studyInstanceUid args) (seriesInstanceUid args) (sopInstanceUid args)
      studyPath pathname w = (Ok cache, w1)
    ∧ ensureFetched env (useCache cache) pathname (studyInstanceUid args)
        (seriesInstanceUid args) (sopInstanceUid args)
        (queryLevel_of (seriesInstanceUid args)) w1 = (Ok tt, w2)
    ∧ (if isDir cache then
         ∃ entries,
           files w2 !! pathname = Some (Directory entries) ∧
           fst (Promise_all (completion_order env entries)
                  (map (transform env cache pathname (dataFormat args)) entries) w2)
             = Ok buffers ∧
           Forall2 (fun file buff => is_Some buff ↔ file ∈ foundInstances cache)
             entries buffers
       else
         ∃ part,
           fst (addFileToBuffer env studyPath (filename_of (sopInstanceUid args))
                  (dataFormat args) w2) = Ok part ∧
           buffers = [Some part])
    ∧ buffer response =
        concat (map (fun part => Buffer_from ("--" +:+ boundary +:+ term) ++ part)
                    (omap id buffers))
        ++ Buffer_from ("--" +:+ boundary +:+ "--" +:+ term)
    ∧ (omap id buffers = [] →
         buffer response = Buffer_from ("--" +:+ boundary +:+ "--" +:+ term))
    ∧ contentType response =
        "multipart/related;type='" +:+ type +:+ "';boundary=" +:+ boundary.
Proof.
  intros boundary studyPath pathname type Hformat Hok.
  destruct (doWadoRs_inv args w response Hok) as (cache & w1 & w2 & w3 & Hc & Hf & Hr).
  assert (fst (multipart_response env cache (studyInstanceUid args) studyPath pathname
                 (filename_of (sopInstanceUid args)) (dataFormat args) w2) = Ok response)
    as Hm.
  { destruct (dataFormat args) as [[]|]; try exact (f_equal fst Hr). congruence. }
  clear Hr. apply multipart_response_inv in Hm as (buffers & -> & Hparts).
  exists cache, w1, w2, buffers. split; [exact Hc|]. split; [exact Hf|].
  split; [|split; [|split]].
  - destruct (isDir cache); [|exact Hparts].
    destruct Hparts as (entries & Hentries & HP). exists entries.
    split; [exact Hentries|]. split; [exact HP|].
    apply (Promise_all_returns
             (fun i buff => ∀ file, entries !! i = Some file →
                                    (is_Some buff ↔ file ∈ foundInstances cache)))
      in HP as [Hlen Hpost].
    + apply Forall2_same_length_lookup_2.
      * rewrite Hlen. symmetry. apply length_map.
      * intros i file buff Hfile Hbuff. apply (Hpost i buff Hbuff file Hfile).
    + intros i a Ha.
      change (map (transform env cache pathname (dataFormat args)) entries)
        with (transform env cache pathname (dataFormat args) <$> entries) in Ha.
      rewrite list_lookup_fmap in Ha.
      destruct (entries !! i) as [file|]; [|discriminate]. injection Ha as <-.
      intros w'. pose proof (transform_returns cache pathname (dataFormat args) file w') as H.
      revert H. generalize (fst (transform env cache pathname (dataFormat args) file w')).
      intros t. induction t as [[x|e]|resume IH] using Task_induction; cbn.
      * intros H file' [= <-]. exact H.
      * trivial.
      * intros H w''. apply IH, H.
  - apply assemble_buffer.
  - intros Hnone. rewrite assemble_buffer, Hnone. reflexivity.
  - cbn [assemble contentType]. rewrite multipart_type_cases. reflexivity.
Qed.




Lemma thumbnail_response_outcome (cache : CacheCheck) (pathname filePath : string)
    (w : World) :
  (if isDir cache then path_join env pathname <$> foundInstances cache !! 0
   else Some pathname) = Some filePath →
  thumbnail_response env cache pathname w =
  match convertToJpeg env filePath true w with
  | (Ok (Some buff), w') => (Ok {| contentType := "image/jpeg"; buffer := buff |}, w')
  | (Ok None, w') => (Throw (Error "Failed to create thumbnail"), w')
  | (Throw e, w') => (Throw e, w')
  end.
Proof.
  intros Htarget. unfold thumbnail_response.
  assert ((if isDir cache
           then match foundInstances cache !! 0 with
                | Some first => ret (path_join env pathname first)
                | None => throw (TypeError "The path argument must be of type string. Received undefined")
                end
           else ret pathname) = ret filePath) as ->.
  { destruct (isDir cache).
    - destruct (foundInstances cache !! 0); cbn in Htarget; [|discriminate].
      injection Htarget as ->. reflexivity.
    - injection Htarget as ->. reflexivity. }
  cbv beta iota delta [bind ret throw].
  destruct (convertToJpeg env filePath true w) as [[[buff|]|e] w']; reflexivity.
Qed.

Lemma silent_ensureFetched (kind : event → bool) (hit : bool) (pathname study : string)
    (series sop : option string) (level : QUERY_LEVEL) :
  (∀ m, kind (LogInfo m) = false) →
  (∀ a b c d, kind (Fetch a b c d) = false) →
  silent kind (ensureFetched env hit pathname study series sop level).
Proof.
  intros HL HF. unfold ensureFetched, logger_info, waitOrFetchData.
  silence_with ltac:(first [apply silent_emit, HL | apply silent_emit, HF]).
Qed.

(** Claim C7.  A thumbnail request, once the cache check and the fetch step
    are through and the render target is known, is answered by the renderer
    alone: the renderer's bytes come back as a bare [image/jpeg] response,
    an absent rendering fails the request with the error of message
    [Failed to create thumbnail], and a failure of the renderer is the
    failure of the request.  No response of a thumbnail request is a
    multipart response, and no object is handed to the transcoder. *)
Theorem thumbnail_short_circuit (args : WadoRsArgs) (w w1 w2 : World)
    (cache : CacheCheck) (filePath : string) :
  let pathname := pathname_of env (studyInstanceUid args) (sopInstanceUid args) in
  dataFormat args = Some thumbnail →
  checkCache env (studyInstanceUid args) (seriesInstanceUid args) (sopInstanceUid args)
    (studyPath_of env (studyInstanceUid args)) pathname w = (Ok cache, w1) →
  ensureFetched env (useCache cache) pathname (studyInstanceUid args)
    (seriesInstanceUid args) (sopInstanceUid args)
    (queryLevel_of (seriesInstanceUid args)) w1 = (Ok tt, w2) →
  (if isDir cache then path_join env pathname <$> foundInstances cache !! 0
   else Some pathname) = Some filePath →
  doWadoRs env args w =
    match convertToJpeg env filePath true w2 with
    | (Ok (Some buff), w3) => (Ok {| contentType := "image/jpeg"; buffer := buff |}, w3)
    | (Ok None, w3) => (Throw (Error "Failed to create thumbnail"), w3)
    | (Throw e, w3) => (Throw e, w3)
    end
  ∧ (∀ response, fst (doWadoRs env args w) = Ok response →
       contentType response = "image/jpeg")
  ∧ events is_Compress (trace (snd (doWadoRs env args w))) = events is_Compress (trace w).
Proof.
  intros pathname Hformat Hc Hf Htarget.
  assert (doWadoRs env args w =
          match convertToJpeg env filePath true w2 with
          | (Ok (Some buff), w3) => (Ok {| contentType := "image/jpeg"; buffer := buff |}, w3)
          | (Ok None, w3) => (Throw (Error "Failed to create thumbnail"), w3)
          | (Throw e, w3) => (Throw e, w3)
          end) as Heq.
  { rewrite (doWadoRs_unfold args w w1 cache Hc). fold pathname. rewrite Hf, Hformat.
    apply thumbnail_response_outcome. exact Htarget. }
  split; [exact Heq|]. split.
  - intros response. rewrite Heq.
    destruct (convertToJpeg env filePath true w2) as [[[buff|]|e] w3]; cbn; try discriminate.
    intros [= <-]. reflexivity.
  - rewrite (doWadoRs_unfold args w w1 cache Hc). fold pathname. rewrite Hf, Hformat.
    rewrite silent_thumbnail_response by reflexivity.
    pose proof (silent_ensureFetched is_Compress (useCache cache) pathname
                  (studyInstanceUid args) (seriesInstanceUid args) (sopInstanceUid args)
                  (queryLevel_of (seriesInstanceUid args))
                  (fun _ => eq_refl) (fun _ _ _ _ => eq_refl) w1) as H2.
    rewrite Hf in H2. cbn [snd] in H2. rewrite H2.
    pose proof (silent_checkCache is_Compress (studyInstanceUid args) (seriesInstanceUid args)
                  (sopInstanceUid args) (studyPath_of env (studyInstanceUid args)) pathname
                  (fun _ _ _ _ => eq_refl) w) as H1.
    rewrite Hc in H1. exact H1.
Qed.

Lemma check_instances_inv (studyPath : string) (json : list (gmap string QidoAttribute)) :
  ∀ (found : list string) (w w' : World) (r : list bool * list string),
    check_instances env studyPath json found w = (Ok r, w') →
    ∃ ids,
      snd r = found ++ ids ∧
      foldr andb true (fst r) =
        foldr andb true (map (fun id => present (files w) (path_join env studyPath id)) ids).
Proof.
  induction json as [|instance json IH]; intros found w w' r; cbn [check_instances].
  - unfold ret. intros [= <- <-]. exists []. rewrite app_nil_r. split; reflexivity.
  - unfold bind, check_instance.
    destruct (instance !! "00080018") as [attribute|].
    + destruct (Value attribute !! 0) as [id|]; [|discriminate].
      cbv beta iota delta [bind fileExists ret fst snd].
      destruct (check_instances env studyPath json (found ++ [id]) w) as [[[checks ids']|e] w1] eqn:E;
        [|discriminate].
      intros [= <- <-]. apply IH in E as (ids & Hids & Hfold).
      exists (id :: ids). cbn [fst snd map foldr] in *. rewrite Hids, Hfold, <- app_assoc.
      split; reflexivity.
    + cbv beta iota delta [ret fst snd].
      destruct (check_instances env studyPath json found w) as [[[checks ids']|e] w1] eqn:E;
        [|discriminate].
      intros [= <- <-]. apply IH in E as (ids & Hids & Hfold).
      exists ids. cbn [fst snd foldr] in *. rewrite Hfold. split; [exact Hids | reflexivity].
Qed.

(** With no expected instance recorded, a directory scope is a hit. *)
Lemma checkCache_nothing_expected (study : string) (series sop : option string)
    (studyPath pathname : string) (w w1 : World) (cache : CacheCheck) :
  checkCache env study series sop studyPath pathname w = (Ok cache, w1) →
  isDir cache = true → foundInstances cache = [] → useCache cache = true.
Proof.
  unfold checkCache.
  cbv beta iota delta [bind fileExists present fs_stat_isDirectory ret].
  destruct (files w !! pathname) as [[content|entries]|] eqn:H; rewrite ?H.
  - intros [= <- <-]. discriminate.
  - destruct (doFind _ _ _ _ _ w) as [[json|] w']; [|discriminate].
    destruct (check_instances _ _ _ _ w') as [[[checks ids]|] w''] eqn:E2; [|discriminate].
    intros [= <- <-] _. cbn [foundInstances useCache fst snd]. intros ->.
    apply check_instances_inv in E2 as (ids & Hids & Hfold). cbn [fst snd] in *.
    symmetry in Hids. apply app_nil in Hids as [_ ->].
    rewrite fold_left_andb, Hfold. reflexivity.
  - destruct (doFind _ _ _ _ _ w) as [[json|] w']; [|discriminate].
    destruct (check_instances _ _ _ _ w') as [[[checks ids]|] w''] eqn:E2; [|discriminate].
    intros [= <- <-] _. cbn [foundInstances useCache fst snd]. intros ->.
    apply check_instances_inv in E2 as (ids & Hids & Hfold). cbn [fst snd] in *.
    symmetry in Hids. apply app_nil in Hids as [_ ->].
    rewrite fold_left_andb, Hfold. reflexivity.
Qed.

Lemma checkCache_isDir (study : string) (series sop : option string)
    (studyPath pathname : string) (w w1 : World) (cache : CacheCheck) :
  checkCache env study series sop studyPath pathname w = (Ok cache, w1) →
  isDir cache = true →
  files w !! pathname = None ∨ ∃ entries, files w !! pathname = Some (Directory entries).
Proof.
  unfold checkCache.
  cbv beta iota delta [bind fileExists present fs_stat_isDirectory ret].
  destruct (files w !! pathname) as [[content|entries]|] eqn:H; rewrite ?H; eauto.
  intros [= <- <-]. discriminate.
Qed.

(** Claim C10.  In a directory scope a thumbnail is rendered from the file
    that the first recorded expected instance names under the target path
    (the directory listing is not read).  The recorded instances are the
    expected instances of the metadata query; when none was recorded the
    lookup of the first one has no value, the request fails with the
    [TypeError] of [path.join] in the world the cache check left, without
    a run of the converter, and this is not the error of message
    [Failed to create thumbnail]. *)
Theorem thumbnail_target_in_directory_scope (args : WadoRsArgs) (w w1 : World)
    (cache : CacheCheck) :
  let study := studyInstanceUid args in
  let pathname := pathname_of env study (sopInstanceUid args) in
  dataFormat args = Some thumbnail →
  checkCache env study (seriesInstanceUid args) (sopInstanceUid args)
    (studyPath_of env study) pathname w = (Ok cache, w1) →
  isDir cache = true →
  (∀ first w2,
     foundInstances cache !! 0 = Some first →
     ensureFetched env (useCache cache) pathname study (seriesInstanceUid args)
       (sopInstanceUid args) (queryLevel_of (seriesInstanceUid args)) w1 = (Ok tt, w2) →
     doWadoRs env args w =
       match convertToJpeg env (path_join env pathname first) true w2 with
       | (Ok (Some buff), w3) => (Ok {| contentType := "image/jpeg"; buffer := buff |}, w3)
       | (Ok None, w3) => (Throw (Error "Failed to create thumbnail"), w3)
       | (Throw e, w3) => (Throw e, w3)
       end)
  ∧ (∀ json,
       metadata_query env IMAGE study (or_empty (seriesInstanceUid args))
         (or_empty (sopInstanceUid args)) = Ok json →
       Forall (fun instance => carries_value instance = true) json →
       foundInstances cache = expected_instances json)
  ∧ (foundInstances cache = [] →
       doWadoRs env args w =
         (Throw (TypeError "The path argument must be of type string. Received undefined"), w1)
       ∧ events is_Exec (trace (snd (doWadoRs env args w))) = events is_Exec (trace w)
       ∧ fst (doWadoRs env args w) ≠ Throw (Error "Failed to create thumbnail")).
Proof.
  intros study pathname Hformat Hc Hdir. split; [|split].
  - intros first w2 Hfirst Hf.
    rewrite (doWadoRs_unfold args w w1 cache Hc). fold study pathname.
    rewrite Hf, Hformat. apply thumbnail_response_outcome.
    rewrite Hdir, Hfirst. reflexivity.
  - intros json Hq Hjson.
    pose proof (checkCache_isDir _ _ _ _ _ _ _ _ Hc Hdir) as Hp.
    rewrite (checkCache_directory study (seriesInstanceUid args) (sopInstanceUid args)
               (studyPath_of env study) pathname w json Hp Hq Hjson) in Hc.
    injection Hc as <- _. reflexivity.
  - intros Hnone.
    assert (doWadoRs env args w =
            (Throw (TypeError "The path argument must be of type string. Received undefined"), w1))
      as Heq.
    { rewrite (doWadoRs_unfold args w w1 cache Hc). fold study pathname.
      rewrite (checkCache_nothing_expected _ _ _ _ _ _ _ _ Hc Hdir Hnone).
      rewrite ensureFetched_hit, Hformat.
      unfold thumbnail_response. rewrite Hdir, Hnone. reflexivity. }
    rewrite Heq. cbn [fst snd]. split; [reflexivity|]. split; [|discriminate].
    pose proof (silent_checkCache is_Exec study (seriesInstanceUid args)
                  (sopInstanceUid args) (studyPath_of env study) pathname
                  (fun _ _ _ _ => eq_refl) w) as H1.
    rewrite Hc in H1. exact H1.
Qed.

End Properties.

(** ** The program at work *)

(** The second scenario of the spec: study S2 with the expected instances
    I1 and I2, of which only I1 is on disk. *)
Lemma checkCache_directory_scope_witness :
  fst (checkCache Scenario.env "S2" None None
         (studyPath_of Scenario.env "S2") (pathname_of Scenario.env "S2" None) Scenario.w0)
  = Ok {| isDir := true; useCache := false; foundInstances := ["I1"; "I2"] |}.
Proof.
  refine (proj1 (checkCache_directory_scope Scenario.env "S2" None None Scenario.w0
                   [Scenario.instance_of "I1"; Scenario.instance_of "I2"] _ _ _)).
  - right. exists ["I1"]. reflexivity.
  - reflexivity.
  - repeat constructor.
Defined.

(** The same request fetches once, with [(S2, '', '', STUDY)]. *)
Lemma doWadoRs_fetches_witness :
  events is_Fetch
    (trace (snd (doWadoRs Scenario.env (Scenario.request "S2" None None) Scenario.w0)))
  = [Fetch "S2" EmptyString EmptyString STUDY].
Proof.
  exact (doWadoRs_fetches Scenario.env (Scenario.request "S2" None None) Scenario.w0
           {| files := Scenario.storage;
              trace := [Find IMAGE "S2" EmptyString EmptyString] |}
           {| isDir := true; useCache := false; foundInstances := ["I1"; "I2"] |}
           eq_refl).
Defined.

(** Pixel data of two bytes at offset one of a four-byte object. *)
Lemma addFileToBuffer_pixelData_witness :
  fst (addFileToBuffer Scenario.env "/data/S1" "I1" (Some pixelData) Scenario.w0)
  = Ok (Buffer_from ("Content-Type:application/octet-stream;" +:+ term)
        ++ Buffer_from term ++ [x0a; x0b] ++ Buffer_from term).
Proof.
  refine (addFileToBuffer_pixelData Scenario.env "/data/S1" "I1" pixelData Scenario.w0
            [x01; x0a; x0b; x0c]
            {| elements := {[ "x7fe00010" := {| Element.dataOffset := 1; Element.length := 2 |} ]};
               byteArray_buffer := [x01; x0a; x0b; x0c] |}
            {| Element.dataOffset := 1; Element.length := 2 |} _ _ _ _ _).
  - left. reflexivity.
  - reflexivity.
  - reflexivity.
  - reflexivity.
  - cbn. lia.
Defined.

(** Study S3 is on disk with the objects a, b and c, and is asked for
    without a format. *)
Lemma multipart_body_witness :
  ∃ response,
    fst (doWadoRs Scenario.env (Scenario.request "S3" None None) Scenario.w0) = Ok response
    ∧ contentType response = "multipart/related;type='application/dicom';boundary=S3"
    ∧ buffer response =
        Buffer_from ("--S3" +:+ term)
        ++ (Buffer_from ("Content-Type:application/dicom;transfer-syntax:1.2.840.10008.1.2.1"
                         +:+ term)
            ++ Buffer_from term ++ [x01; x0a; x0a; x0a] ++ Buffer_from term)
        ++ Buffer_from ("--S3" +:+ term)
        ++ (Buffer_from ("Content-Type:application/dicom;transfer-syntax:1.2.840.10008.1.2.1"
                         +:+ term)
            ++ Buffer_from term ++ [x02; x0b; x0b; x0b] ++ Buffer_from term)
        ++ Buffer_from ("--S3" +:+ term)
        ++ (Buffer_from ("Content-Type:application/dicom;transfer-syntax:1.2.840.10008.1.2.1"
                         +:+ term)
            ++ Buffer_from term ++ [x03; x0c; x0c; x0c] ++ Buffer_from term)
        ++ Buffer_from ("--S3--" +:+ term).
Proof.
  eexists. split; [vm_compute; reflexivity|].
  destruct (multipart_body Scenario.env (Scenario.request "S3" None None) Scenario.w0 _
              ltac:(discriminate) eq_refl)
    as (cache & w1 & w2 & buffers & Hcache & Hfetch & Hparts & Hbody & Hnone & Htype).
  split; [exact Htype|].
  vm_compute. reflexivity.
Defined.





(** The third scenario of the spec: a thumbnail of an object that the
    converter renders to nothing. *)
Lemma thumbnail_short_circuit_witness :
  fst (doWadoRs Scenario.env (Scenario.request "S3" (Some "c") (Some thumbnail)) Scenario.w0)
  = Throw (Error "Failed to create thumbnail").
Proof.
  rewrite (proj1 (thumbnail_short_circuit Scenario.env
                    (Scenario.request "S3" (Some "c") (Some thumbnail))
                    Scenario.w0 Scenario.w0 Scenario.w0
                    {| isDir := false; useCache := true; foundInstances := [] |}
                    "/data/S3/c" eq_refl eq_refl eq_refl eq_refl)).
  vm_compute. reflexivity.
Defined.

(** A target path that is a file. *)
Lemma file_target_never_fetches_witness :
  fst (checkCache Scenario.env "S1" None (Some "I1")
         (studyPath_of Scenario.env "S1") (pathname_of Scenario.env "S1" (Some "I1"))
         Scenario.w0)
    = Ok {| isDir := false; useCache := true; foundInstances := [] |}
  ∧ events is_Fetch
      (trace (snd (doWadoRs Scenario.env (Scenario.request "S1" (Some "I1") None)
                     Scenario.w0)))
    = [].
Proof.
  exact (proj1 (file_target_never_fetches Scenario.env
                  (Scenario.request "S1" (Some "I1") None) Scenario.w0)
           [x01; x0a; x0b; x0c] eq_refl).
Defined.

(** A thumbnail of a study the remote source has no instance of. *)
Lemma thumbnail_target_in_directory_scope_witness :
  doWadoRs Scenario.env (Scenario.request "S0" None (Some thumbnail)) Scenario.w0
  = (Throw (TypeError "The path argument must be of type string. Received undefined"),
     {| files := Scenario.storage; trace := [Find IMAGE "S0" EmptyString EmptyString] |}).
Proof.
  refine (proj1 (proj2 (proj2
            (thumbnail_target_in_directory_scope Scenario.env
               (Scenario.request "S0" None (Some thumbnail)) Scenario.w0
               {| files := Scenario.storage; trace := [Find IMAGE "S0" EmptyString EmptyString] |}
               {| isDir := true; useCache := true; foundInstances := [] |}
               eq_refl eq_refl eq_refl)) eq_refl)).
Defined.

(** An object that is converted only with all frames. *)
Lemma convertToJpeg_retry_and_probe_witness :
  trace (snd (convertToJpeg Scenario.env "/data/S3/b" false Scenario.w0))
  = [Exec "dcmj2pnm" ["+oj"; "+Jq"; "100"; "/data/S3/b"; "/data/S3/b.jpg"];
     Exec "dcmj2pnm" ["+oj"; "+Jq"; "100"; "+Fa"; "/data/S3/b"; "/data/S3/b"]]
  ∧ fst (convertToJpeg Scenario.env "/data/S3/b" false Scenario.w0)
    = Ok (Some [xff; xd8; x0b; x0b; x0b]).
Proof.
  pose proof (convertToJpeg_retry_and_probe Scenario.env "/data/S3/b" false Scenario.w0)
    as (Hretry & _ & Hprobe).
  split.
  - exact (proj1 (Hretry _ eq_refl)).
  - refine (proj1 (proj2 (Hprobe (or_intror eq_refl))) _ _ _); vm_compute; reflexivity.
Defined.

(** Claim C6, as the spec states it, fails: the retry has another output
    argument than the first run.  The object [/data/S3/b] is converted only
    with all frames; the first run is given [/data/S3/b.jpg], the retry
    [/data/S3/b]. *)
Lemma retry_output_differs :
  ¬ retry_targets_same_output Scenario.env "/data/S3/b" false Scenario.w0.
Proof.
  intros Hsame.
  destruct (Hsame (Rejected "dcmj2pnm" "cannot convert a single frame") eq_refl)
    as (args1 & args2 & Htrace & _ & Hlast).
  vm_compute in Htrace. injection Htrace as <- <-.
  vm_compute in Hlast. discriminate.
Qed.

(** Claim C8 fails on the code.  The object [/data/S3/c] is one the
    converter renders to nothing: the renderer signals absent, and the
    rendered transform raises a [TypeError] out of [Buffer.concat], which
    fails the request. *)
Theorem rendered_absent_raises :
  fst (convertToJpeg Scenario.env "/data/S3/c" false Scenario.w0) = Ok None
  ∧ fst (addFileToBuffer Scenario.env "/data/S3" "c" (Some rendered) Scenario.w0)
    = Throw (TypeError "list argument must be an instance of Buffer or Uint8Array")
  ∧ fst (doWadoRs Scenario.env (Scenario.request "S3" (Some "c") (Some rendered)) Scenario.w0)
    = Throw (TypeError "list argument must be an instance of Buffer or Uint8Array").
Proof. vm_compute. repeat split. Qed.


(** ** Further properties *)

Section Further.

Context (env : Collaborators).

(** *** The object transcoder, step by step *)

(** The normalization step with its trace: one transcoder call, and the
    log line when the transcoder rejects. *)
Lemma normalize_trace (filepath pathname : string) (transferSyntax : option string)
    (w : World) :
  try_catch (compressFile env filepath pathname transferSyntax)
            (fun _ => logger_error ["Failed to compress"; filepath]) w =
  (Ok tt,
   {| files := snd (transcoder env filepath pathname transferSyntax (files w));
      trace := trace w ++
               Compress filepath pathname transferSyntax ::
               match fst (transcoder env filepath pathname transferSyntax (files w)) with
               | Ok _ => []
               | Throw _ => [LogError ["Failed to compress"; filepath]]
               end |}).
Proof.
  unfold try_catch, compressFile, logger_error. cbv beta iota delta [bind emit on_files].
  cbn [files trace].
  destruct (transcoder env filepath pathname transferSyntax (files w)) as [[[]|e] fs];
    cbn [files trace fst snd]; [reflexivity|].
  rewrite <- app_assoc. reflexivity.
Qed.

Lemma addFileToBuffer_unfold (pathname filename : string) (dataFormat : option DataFormat)
    (w : World) :
  let filepath := path_join env pathname filename in
  ∃ rest : M Buffer,
    (∀ kind, (∀ file args, kind (Exec file args) = false) → silent kind rest) ∧
    (dataFormat ≠ Some rendered → ∀ kind, silent kind rest) ∧
    (∀ w1, files w1 !! filepath = None →
           rest w1 = (Throw (SystemError "ENOENT" filepath), w1)) ∧
    addFileToBuffer env pathname filename dataFormat w =
    rest {| files := snd (transcoder env filepath pathname (target_syntax dataFormat) (files w));
            trace := trace w ++
                     Compress filepath pathname (target_syntax dataFormat) ::
                     match fst (transcoder env filepath pathname (target_syntax dataFormat)
                                  (files w)) with
                     | Ok _ => []
                     | Throw _ => [LogError ["Failed to compress"; filepath]]
                     end |}.
Proof.
  intros filepath. unfold addFileToBuffer. cbv beta iota zeta. fold filepath.
  fold (target_syntax dataFormat).
  match goal with |- context [bind _ ?k w] => exists (k tt) end.
  split; [|split; [|split]].
  - intros kind HE. unfold parseDicom.
    silence_with ltac:(apply silent_convertToJpeg; assumption).
  - intros Hformat kind. unfold parseDicom.
    destruct dataFormat as [[]|]; try congruence; silence.
  - intros w1 Hmiss. unfold bind at 1, fs_readFile. rewrite Hmiss. reflexivity.
  - unfold bind at 1. rewrite normalize_trace. reflexivity.
Qed.

(** Property X1.  Without a data format the transcoder is asked for no
    transfer syntax, and when the object is readable in the storage the
    transcoder leaves - whether the transcoder succeeded or rejected - the
    part is the header line [Content-Type:<MIMETYPE>;transfer-syntax:<XTRANSFER>]
    CRLF, a blank line, the bytes of the object as they are on disk then,
    and a CRLF. *)
Theorem addFileToBuffer_default (pathname filename : string) (w : World) (data : Buffer) :
  let filepath := path_join env pathname filename in
  let left := transcoder env filepath pathname None (files w) in
  snd left !! filepath = Some (File data) →
  addFileToBuffer env pathname filename None w =
    (Ok (Buffer_from ("Content-Type:" +:+ MIMETYPE env +:+ ";transfer-syntax:"
                        +:+ XTRANSFER env +:+ term)
         ++ Buffer_from term ++ data ++ Buffer_from term),
     {| files := snd left;
        trace := trace w ++
                 Compress filepath pathname None ::
                 match fst left with
                 | Ok _ => []
                 | Throw _ => [LogError ["Failed to compress"; filepath]]
                 end |}).
Proof.
  intros filepath left Hfile.
  unfold addFileToBuffer. cbv beta iota zeta. fold filepath.
  unfold bind at 1. rewrite normalize_trace. fold left.
  cbv beta iota delta [bind fs_readFile ret of_result]. cbn [files fst snd].
  rewrite Hfile. cbn [Buffer_concat]. rewrite app_nil_r. reflexivity.
Qed.

(** Property X2.  A transform calls the transcoder exactly once, whatever
    its outcome: with the target syntax [1.2.840.10008.1.2] when a data
    format is set and with none otherwise.  A rejection of the transcoder
    is logged once and is the only error the transform logs. *)
Theorem addFileToBuffer_transcoder_call (pathname filename : string)
    (dataFormat : option DataFormat) (w : World) :
  let filepath := path_join env pathname filename in
  let after := snd (addFileToBuffer env pathname filename dataFormat w) in
  events is_Compress (trace after) =
    events is_Compress (trace w) ++
    [Compress filepath pathname
       (match dataFormat with Some _ => Some "1.2.840.10008.1.2" | None => None end)]
  ∧ events is_LogError (trace after) =
      events is_LogError (trace w) ++
      match fst (transcoder env filepath pathname
                   (match dataFormat with Some _ => Some "1.2.840.10008.1.2" | None => None end)
                   (files w)) with
      | Ok _ => []
      | Throw _ => [LogError ["Failed to compress"; filepath]]
      end.
Proof.
  intros filepath after. subst after.
  destruct (addFileToBuffer_unfold pathname filename dataFormat w)
    as (rest & Hsilent & _ & _ & ->).
  fold filepath. fold (target_syntax dataFormat).
  split.
  - rewrite (Hsilent is_Compress) by reflexivity. cbn [trace].
    rewrite events_app. f_equal.
    destruct (fst (transcoder env filepath pathname (target_syntax dataFormat) (files w)));
      reflexivity.
  - rewrite (Hsilent is_LogError) by reflexivity. cbn [trace].
    rewrite events_app. f_equal.
    destruct (fst (transcoder env filepath pathname (target_syntax dataFormat) (files w)));
      reflexivity.
Qed.

(** Property X3.  When the object is not in the storage the transcoder
    leaves, the transform fails with the [ENOENT] of the read, for every
    data format, and the converter is not run. *)
Theorem addFileToBuffer_unreadable (pathname filename : string)
    (dataFormat : option DataFormat) (w : World) :
  let filepath := path_join env pathname filename in
  snd (transcoder env filepath pathname
         (match dataFormat with Some _ => Some "1.2.840.10008.1.2" | None => None end)
         (files w)) !! filepath = None →
  fst (addFileToBuffer env pathname filename dataFormat w)
    = Throw (SystemError "ENOENT" filepath)
  ∧ events is_Exec (trace (snd (addFileToBuffer env pathname filename dataFormat w)))
    = events is_Exec (trace w).
Proof.
  intros filepath Hmiss.
  destruct (addFileToBuffer_unfold pathname filename dataFormat w)
    as (rest & _ & _ & Hread & ->).
  fold filepath in Hread |- *. fold (target_syntax dataFormat) in Hmiss |- *.
  rewrite Hread by exact Hmiss. cbn [fst snd trace]. split; [reflexivity|].
  rewrite events_app.
  destruct (fst (transcoder env filepath pathname (target_syntax dataFormat) (files w)));
    cbn; apply app_nil_r.
Qed.

Lemma addFileToBuffer_pixelData_unfold (pathname filename : string) (format : DataFormat)
    (w : World) (data : Buffer) :
  let filepath := path_join env pathname filename in
  format = pixelData ∨ format = bulkData →
  snd (transcoder env filepath pathname (Some "1.2.840.10008.1.2") (files w)) !! filepath
    = Some (File data) →
  fst (addFileToBuffer env pathname filename (Some format) w) =
  match dicomParser env data with
  | Throw e => Throw e
  | Ok dataset =>
      match elements dataset !! "x7fe00010" with
      | None => Throw (TypeError "Cannot read properties of undefined (reading 'dataOffset')")
      | Some pixelDataElement =>
          match Buffer_from_arrayBuffer (byteArray_buffer dataset)
                  (Element.dataOffset pixelDataElement)
                  (Element.length pixelDataElement) with
          | Ok view =>
              Ok (Buffer_from ("Content-Type:application/octet-stream;" +:+ term)
                  ++ Buffer_from term ++ view ++ Buffer_from term)
          | Throw e => Throw e
          end
      end
  end.
Proof.
  intros filepath Hformat Hfile.
  unfold addFileToBuffer. cbv beta iota zeta. fold filepath.
  unfold bind at 1. rewrite normalize_trace.
  unfold bind at 1, fs_readFile at 1. cbn [files]. rewrite Hfile.
  destruct Hformat as [-> | ->].
  all: cbv beta iota delta [bind parseDicom of_result ret throw].
  all: destruct (dicomParser env data) as [dataset|e]; [|reflexivity].
  all: destruct (elements dataset !! "x7fe00010") as [el|]; [|reflexivity].
  all: destruct (Buffer_from_arrayBuffer _ _ _) as [view|e]; [|reflexivity].
  all: cbn [fst snd Buffer_concat]; rewrite app_nil_r; reflexivity.
Qed.

(** Property X4.  For [pixelData] and [bulkData] on a readable object: a
    rejection of the parser is the failure of the transform; a data set
    without the Pixel Data element fails it with a [TypeError]; and an
    element that reaches beyond the parsed buffer fails it with a
    [RangeError].  No part is produced in these cases. *)
Theorem addFileToBuffer_pixelData_faults (pathname filename : string) (format : DataFormat)
    (w : World) (data : Buffer) :
  let filepath := path_join env pathname filename in
  let out := fst (addFileToBuffer env pathname filename (Some format) w) in
  format = pixelData ∨ format = bulkData →
  snd (transcoder env filepath pathname (Some "1.2.840.10008.1.2") (files w)) !! filepath
    = Some (File data) →
  (∀ e, dicomParser env data = Throw e → out = Throw e)
  ∧ (∀ dataset, dicomParser env data = Ok dataset →
       elements dataset !! "x7fe00010" = None →
       out = Throw (TypeError "Cannot read properties of undefined (reading 'dataOffset')"))
  ∧ (∀ dataset pixelDataElement,
       dicomParser env data = Ok dataset →
       elements dataset !! "x7fe00010" = Some pixelDataElement →
       List.length (byteArray_buffer dataset)
         < Element.dataOffset pixelDataElement + Element.length pixelDataElement →
       ∃ message, out = Throw (RangeError message)).
Proof.
  intros filepath out Hformat Hfile. subst out.
  rewrite (addFileToBuffer_pixelData_unfold pathname filename format w data Hformat Hfile).
  split; [|split].
  - intros e ->. reflexivity.
  - intros dataset -> ->. reflexivity.
  - intros dataset el -> -> Hout.
    unfold Buffer_from_arrayBuffer.
    destruct (Nat.ltb_spec (List.length (byteArray_buffer dataset)) (Element.dataOffset el));
      [eauto|].
    destruct (Nat.ltb_spec (List.length (byteArray_buffer dataset) - Element.dataOffset el)
                (Element.length el)); [eauto|lia].
Qed.

(** Property X5.  For [rendered] on a readable object the transform is the
    renderer at full quality on the object's path, run in the world the
    normalization leaves: rendered bytes give the part
    [Content-Type:image/jpeg;] CRLF, a blank line, the bytes and a CRLF,
    and a failure of the renderer is the failure of the transform. *)
Theorem addFileToBuffer_rendered_part (pathname filename : string) (w : World)
    (data : Buffer) :
  let filepath := path_join env pathname filename in
  let left := transcoder env filepath pathname (Some "1.2.840.10008.1.2") (files w) in
  let w1 :=
    {| files := snd left;
       trace := trace w ++
                Compress filepath pathname (Some "1.2.840.10008.1.2") ::
                match fst left with
                | Ok _ => []
                | Throw _ => [LogError ["Failed to compress"; filepath]]
                end |} in
  snd left !! filepath = Some (File data) →
  (∀ jpeg w2, convertToJpeg env filepath false w1 = (Ok (Some jpeg), w2) →
     addFileToBuffer env pathname filename (Some rendered) w =
       (Ok (Buffer_from ("Content-Type:image/jpeg;" +:+ term)
            ++ Buffer_from term ++ jpeg ++ Buffer_from term), w2))
  ∧ (∀ e w2, convertToJpeg env filepath false w1 = (Throw e, w2) →
       addFileToBuffer env pathname filename (Some rendered) w = (Throw e, w2)).
Proof.
  intros filepath left w1 Hfile.
  assert (addFileToBuffer env pathname filename (Some rendered) w =
          match convertToJpeg env filepath false w1 with
          | (Ok returnData, w2) =>
              (Buffer_concat [Some (Buffer_from ("Content-Type:image/jpeg;" +:+ term));
                              Some (Buffer_from term); returnData; Some (Buffer_from term)], w2)
          | (Throw e, w2) => (Throw e, w2)
          end) as ->.
  { unfold addFileToBuffer. cbv beta iota zeta. fold filepath.
    unfold bind at 1. rewrite normalize_trace. fold left. fold w1.
    unfold bind at 1, fs_readFile at 1. change (files w1) with (snd left). rewrite Hfile.
    unfold bind at 1. unfold bind at 1.
    destruct (convertToJpeg env filepath false w1) as [[returnData|e] w2]; reflexivity. }
  split.
  - intros jpeg w2 ->. cbn [Buffer_concat]. rewrite app_nil_r. reflexivity.
  - intros e w2 ->. reflexivity.
Qed.

(** *** The cache check and the steps before the response *)

Lemma check_instances_world (studyPath : string) (json : list (gmap string QidoAttribute)) :
  ∀ (found : list string) (w : World),
    snd (check_instances env studyPath json found w) = w.
Proof.
  induction json as [|instance json IH]; intros found w; cbn [check_instances]; [reflexivity|].
  unfold bind, check_instance.
  destruct (instance !! "00080018") as [a|]; [destruct (Value a !! 0) as [id|]|];
    cbv beta iota delta [bind fileExists ret throw]; try reflexivity.
  - specialize (IH (found ++ [id]) w).
    destruct (check_instances env studyPath json _ w) as [[]]; exact IH.
  - specialize (IH found w).
    destruct (check_instances env studyPath json _ w) as [[]]; exact IH.
Qed.

(** In a directory scope the cache check is the query and the existence
    checks. *)
Lemma checkCache_directory_enter (study : string) (series sop : option string)
    (studyPath pathname : string) (w : World) :
  (files w !! pathname = None ∨ ∃ entries, files w !! pathname = Some (Directory entries)) →
  checkCache env study series sop studyPath pathname w =
    (json <- doFind env IMAGE study (or_empty series) (or_empty sop) ;;
     r <- check_instances env studyPath json [] ;;
     ret {| isDir := true;
            useCache := fold_left (fun prev curr => prev && curr) (fst r) true;
            foundInstances := snd r |}) w.
Proof.
  intros Hdir. unfold checkCache. unfold bind at 1 2.
  unfold fileExists at 1, present, fs_stat_isDirectory, ret at 1.
  destruct Hdir as [H|[entries H]]; rewrite ?H; reflexivity.
Qed.

Lemma checkCache_world (study : string) (series sop : option string)
    (studyPath pathname : string) (w : World) :
  snd (checkCache env study series sop studyPath pathname w) =
    {| files := files w;
       trace := trace w ++
                match files w !! pathname with
                | Some (File _) => []
                | _ => [Find IMAGE study (or_empty series) (or_empty sop)]
                end |}.
Proof.
  destruct (files w !! pathname) as [[content|entries]|] eqn:H.
  - rewrite (checkCache_file env study series sop studyPath pathname w content H).
    cbn [snd]. rewrite app_nil_r. destruct w; reflexivity.
  - rewrite checkCache_directory_enter by eauto.
    unfold doFind. cbv beta iota delta [bind emit of_result]. cbn [files trace].
    destruct (metadata_query env IMAGE study (or_empty series) (or_empty sop)) as [json|e];
      [|reflexivity].
    match goal with |- context [check_instances env studyPath json [] ?w1] =>
      pose proof (check_instances_world studyPath json [] w1) as Hw;
      destruct (check_instances env studyPath json [] w1) as [[r|e] w2] end.
    all: cbn [snd] in Hw; subst w2; reflexivity.
  - rewrite checkCache_directory_enter by eauto.
    unfold doFind. cbv beta iota delta [bind emit of_result]. cbn [files trace].
    destruct (metadata_query env IMAGE study (or_empty series) (or_empty sop)) as [json|e];
      [|reflexivity].
    match goal with |- context [check_instances env studyPath json [] ?w1] =>
      pose proof (check_instances_world studyPath json [] w1) as Hw;
      destruct (check_instances env studyPath json [] w1) as [[r|e] w2] end.
    all: cbn [snd] in Hw; subst w2; reflexivity.
Qed.

(** When the cache check fails, so does the request, in the same world. *)
Lemma doWadoRs_check_fails (args : WadoRsArgs) (w w1 : World) (e : exn) :
  checkCache env (studyInstanceUid args) (seriesInstanceUid args) (sopInstanceUid args)
    (studyPath_of env (studyInstanceUid args))
    (pathname_of env (studyInstanceUid args) (sopInstanceUid args)) w = (Throw e, w1) →
  doWadoRs env args w = (Throw e, w1).
Proof.
  intros H. unfold doWadoRs. cbv zeta. unfold bind at 1. rewrite H. reflexivity.
Qed.

(** What follows the cache check adds no event of a kind that is none of
    the log lines, the fetch, the converter runs and the transcoder calls. *)
Lemma doWadoRs_events_after_check (kind : event → bool) (args : WadoRsArgs) (w : World) :
  (∀ m, kind (LogInfo m) = false) →
  (∀ a b c d, kind (Fetch a b c d) = false) →
  (∀ file a, kind (Exec file a) = false) →
  (∀ a b c, kind (Compress a b c) = false) →
  (∀ m, kind (LogError m) = false) →
  events kind (trace (snd (doWadoRs env args w))) =
  events kind
    (trace (snd (checkCache env (studyInstanceUid args) (seriesInstanceUid args)
                   (sopInstanceUid args) (studyPath_of env (studyInstanceUid args))
                   (pathname_of env (studyInstanceUid args) (sopInstanceUid args)) w))).
Proof.
  intros HI HF HE HC HL.
  destruct (checkCache env (studyInstanceUid args) (seriesInstanceUid args)
              (sopInstanceUid args) (studyPath_of env (studyInstanceUid args))
              (pathname_of env (studyInstanceUid args) (sopInstanceUid args)) w)
    as [[cache|e] w1] eqn:Hc.
  2: { rewrite (doWadoRs_check_fails args w w1 e Hc). reflexivity. }
  rewrite (doWadoRs_unfold env args w w1 cache Hc). cbn [snd].
  pose proof (silent_ensureFetched env kind (useCache cache)
                (pathname_of env (studyInstanceUid args) (sopInstanceUid args))
                (studyInstanceUid args) (seriesInstanceUid args) (sopInstanceUid args)
                (queryLevel_of (seriesInstanceUid args)) HI HF w1) as Hf.
  destruct (ensureFetched _ _ _ _ _ _ _ w1) as [[[]|e] w2]; cbn [snd] in Hf |- *;
    [|exact Hf].
  rewrite <- Hf.
  destruct (dataFormat args) as [[]|].
  4: apply silent_thumbnail_response; assumption.
  all: apply silent_multipart_response; assumption.
Qed.

(** Property X6.  The cache check leaves the storage as it is.  A request
    sends the metadata query exactly once when its target path is a
    directory or missing - at level IMAGE, filtered by the study,
    [seriesUid ?? ''] and [instanceUid ?? ''] - and never when the target
    path is a file; this holds whatever the outcome of the request. *)
Theorem metadata_query_once (args : WadoRsArgs) (w : World) :
  let study := studyInstanceUid args in
  let pathname := pathname_of env study (sopInstanceUid args) in
  let query :=
    match files w !! pathname with
    | Some (File _) => []
    | _ => [Find IMAGE study (or_empty (seriesInstanceUid args))
                 (or_empty (sopInstanceUid args))]
    end in
  snd (checkCache env study (seriesInstanceUid args) (sopInstanceUid args)
         (studyPath_of env study) pathname w)
    = {| files := files w; trace := trace w ++ query |}
  ∧ events is_Find (trace (snd (doWadoRs env args w))) = events is_Find (trace w) ++ query.
Proof.
  intros study pathname query. split; [apply checkCache_world|].
  rewrite doWadoRs_events_after_check by reflexivity.
  fold study pathname. rewrite checkCache_world. cbn [trace].
  rewrite events_app. f_equal. subst query.
  destruct (files w !! pathname) as [[]|]; reflexivity.
Qed.

(** Property X7.  In a directory scope a rejection of the metadata query is
    the failure of the request: nothing is fetched, read or logged, the
    storage is untouched and the query is the only call made. *)
Theorem query_failure_propagates (args : WadoRsArgs) (w : World) (e : exn) :
  let study := studyInstanceUid args in
  let pathname := pathname_of env study (sopInstanceUid args) in
  (files w !! pathname = None ∨ ∃ entries, files w !! pathname = Some (Directory entries)) →
  metadata_query env IMAGE study (or_empty (seriesInstanceUid args))
    (or_empty (sopInstanceUid args)) = Throw e →
  doWadoRs env args w =
    (Throw e,
     {| files := files w;
        trace := trace w ++ [Find IMAGE study (or_empty (seriesInstanceUid args))
                                  (or_empty (sopInstanceUid args))] |}).
Proof.
  intros study pathname Hdir Hq.
  apply doWadoRs_check_fails. fold study pathname.
  rewrite checkCache_directory_enter by exact Hdir.
  unfold doFind. cbv beta iota delta [bind emit of_result]. rewrite Hq. reflexivity.
Qed.

Lemma check_instances_valueless (studyPath : string)
    (json : list (gmap string QidoAttribute)) :
  Exists (fun instance => carries_value instance = false) json →
  ∀ (found : list string) (w : World),
    check_instances env studyPath json found w =
      (Throw (TypeError "The path argument must be of type string. Received undefined"), w).
Proof.
  induction json as [|instance json IH]; intros Hex found w; [inversion Hex|].
  cbn [check_instances]. unfold bind, check_instance.
  assert (carries_value instance = false ∨
          Exists (fun instance => carries_value instance = false) json) as Hcase.
  { inversion Hex; subst; eauto. }
  unfold carries_value in Hcase.
  destruct (instance !! "00080018") as [attribute|].
  - destruct (Value attribute) as [|id ids]; [reflexivity|].
    destruct Hcase as [[=]|Htail].
    cbn [lookup list_lookup]. cbv beta iota delta [bind fileExists ret].
    cbn [fst snd]. rewrite (IH Htail). reflexivity.
  - destruct Hcase as [[=]|Htail].
    cbv beta iota delta [ret]. cbn [fst snd]. rewrite (IH Htail). reflexivity.
Qed.

(** Property X8.  In a directory scope, when one result of the metadata
    query carries the SOPInstanceUID attribute with an empty [Value], the
    request fails with the [TypeError] of [path.join] on [undefined],
    before any fetch: the query is the only call made. *)
Theorem valueless_result_fails (args : WadoRsArgs) (w : World)
    (json : list (gmap string QidoAttribute)) :
  let study := studyInstanceUid args in
  let pathname := pathname_of env study (sopInstanceUid args) in
  (files w !! pathname = None ∨ ∃ entries, files w !! pathname = Some (Directory entries)) →
  metadata_query env IMAGE study (or_empty (seriesInstanceUid args))
    (or_empty (sopInstanceUid args)) = Ok json →
  Exists (fun instance => carries_value instance = false) json →
  doWadoRs env args w =
    (Throw (TypeError "The path argument must be of type string. Received undefined"),
     {| files := files w;
        trace := trace w ++ [Find IMAGE study (or_empty (seriesInstanceUid args))
                                  (or_empty (sopInstanceUid args))] |}).
Proof.
  intros study pathname Hdir Hq Hex.
  apply doWadoRs_check_fails. fold study pathname.
  rewrite checkCache_directory_enter by exact Hdir.
  unfold doFind. cbv beta iota delta [bind emit of_result]. rewrite Hq.
  rewrite (check_instances_valueless _ json Hex). reflexivity.
Qed.

(** Property X9.  On a miss a rejection of the fetch orchestrator is the
    failure of the request: the world is the storage the orchestrator left
    and the trace of the cache check with the log line [fetching <path>]
    and the one fetch call; no object is listed, read or transformed. *)
Theorem fetch_failure_propagates (args : WadoRsArgs) (w w1 : World) (cache : CacheCheck)
    (e : exn) (fs : gmap string node) :
  let study := studyInstanceUid args in
  let pathname := pathname_of env study (sopInstanceUid args) in
  checkCache env study (seriesInstanceUid args) (sopInstanceUid args)
    (studyPath_of env study) pathname w = (Ok cache, w1) →
  useCache cache = false →
  fetch_orchestrator env study (or_empty (seriesInstanceUid args))
    (or_empty (sopInstanceUid args)) (queryLevel_of (seriesInstanceUid args)) (files w)
    = (Throw e, fs) →
  doWadoRs env args w =
    (Throw e,
     {| files := fs;
        trace := trace w1 ++
                 [LogInfo ("fetching " +:+ pathname);
                  Fetch study (or_empty (seriesInstanceUid args))
                        (or_empty (sopInstanceUid args))
                        (queryLevel_of (seriesInstanceUid args))] |}).
Proof.
  intros study pathname Hc Hmiss Hfetch.
  rewrite (doWadoRs_unfold env args w w1 cache Hc). fold study pathname.
  rewrite Hmiss. unfold ensureFetched, negb, logger_info, waitOrFetchData.
  cbv beta iota delta [bind emit on_files]. cbn [files trace].
  pose proof (checkCache_files env study (seriesInstanceUid args) (sopInstanceUid args)
                (studyPath_of env study) pathname w) as Hfiles.
  rewrite Hc in Hfiles. cbn [snd] in Hfiles. rewrite Hfiles, Hfetch.
  rewrite <- app_assoc. reflexivity.
Qed.

(** *** The response *)

(** The request once the cache check and the fetch step are through. *)
Lemma doWadoRs_multipart (args : WadoRsArgs) (w w1 w2 : World) (cache : CacheCheck) :
  let study := studyInstanceUid args in
  let pathname := pathname_of env study (sopInstanceUid args) in
  dataFormat args ≠ Some thumbnail →
  checkCache env study (seriesInstanceUid args) (sopInstanceUid args)
    (studyPath_of env study) pathname w = (Ok cache, w1) →
  ensureFetched env (useCache cache) pathname study (seriesInstanceUid args)
    (sopInstanceUid args) (queryLevel_of (seriesInstanceUid args)) w1 = (Ok tt, w2) →
  doWadoRs env args w =
    multipart_response env cache study (studyPath_of env study) pathname
      (filename_of (sopInstanceUid args)) (dataFormat args) w2.
Proof.
  intros study pathname Hformat Hc Hf.
  rewrite (doWadoRs_unfold env args w w1 cache Hc). fold study pathname. rewrite Hf.
  destruct (dataFormat args) as [[]|]; congruence.
Qed.

(** Property X10.  When the target path is a file and the request is not
    for a thumbnail, the request is one transform of that file, with no
    query and no fetch: a part gives the response whose body is the line
    [--b] CRLF, the part and the closing line [--b--] CRLF; a failure of
    the transform is logged as [failed to process <path>] and is the
    failure of the request. *)
Theorem single_object_response (args : WadoRsArgs) (w : World) (content : Buffer) :
  let study := studyInstanceUid args in
  let pathname := pathname_of env study (sopInstanceUid args) in
  dataFormat args ≠ Some thumbnail →
  files w !! pathname = Some (File content) →
  doWadoRs env args w =
    match addFileToBuffer env (studyPath_of env study) (filename_of (sopInstanceUid args))
            (dataFormat args) w with
    | (Ok part, w') =>
        (Ok {| contentType := "multipart/related;type='" +:+ multipart_type (dataFormat args)
                                +:+ "';boundary=" +:+ study;
               buffer := Buffer_from ("--" +:+ study +:+ term) ++ part
                         ++ Buffer_from ("--" +:+ study +:+ "--" +:+ term) |}, w')
    | (Throw e, w') =>
        (Throw e,
         {| files := files w';
            trace := trace w' ++ [LogError ["failed to process " +:+ pathname]] |})
    end.
Proof.
  intros study pathname Hformat Hfile.
  rewrite (doWadoRs_multipart args w w w
             {| isDir := false; useCache := true; foundInstances := [] |} Hformat).
  2: { apply (checkCache_file env) with (content := content). exact Hfile. }
  2: reflexivity.
  fold study pathname.
  unfold multipart_response, settle_then. cbv zeta. cbn [isDir].
  destruct (addFileToBuffer env (studyPath_of env study) (filename_of (sopInstanceUid args))
              (dataFormat args) w) as [[part|e] w'].
  - unfold ret. f_equal. f_equal.
    pose proof (assemble_buffer study (dataFormat args) [Some part]) as Hb.
    cbn [omap list_omap id map concat] in Hb. rewrite app_nil_r in Hb.
    unfold opening, closing in Hb. rewrite <- app_assoc in Hb.
    destruct (assemble study (dataFormat args) [Some part]) as [ct b] eqn:Ha.
    cbn [buffer] in Hb. subst b.
    apply (f_equal contentType) in Ha. cbn [assemble contentType] in Ha. subst ct.
    reflexivity.
  - cbv beta iota delta [bind logger_error emit throw]. reflexivity.
Qed.

(** Property X11.  A request that is not for a thumbnail and has got
    through the cache check and the fetch step writes the log line
    [failed to process <target path>] once if it fails and not at all if it
    is answered; the transforms, also those that run on after a failure,
    do not write it. *)
Theorem multipart_failure_is_logged (args : WadoRsArgs) (w w1 w2 : World)
    (cache : CacheCheck) :
  let study := studyInstanceUid args in
  let pathname := pathname_of env study (sopInstanceUid args) in
  dataFormat args ≠ Some thumbnail →
  checkCache env study (seriesInstanceUid args) (sopInstanceUid args)
    (studyPath_of env study) pathname w = (Ok cache, w1) →
  ensureFetched env (useCache cache) pathname study (seriesInstanceUid args)
    (sopInstanceUid args) (queryLevel_of (seriesInstanceUid args)) w1 = (Ok tt, w2) →
  events (is_failure_report pathname) (trace (snd (doWadoRs env args w)))
  = events (is_failure_report pathname) (trace w2)
    ++ match fst (doWadoRs env args w) with
       | Ok _ => []
       | Throw _ => [LogError ["failed to process " +:+ pathname]]
       end.
Proof.
  intros study pathname Hformat Hc Hf.
  rewrite (doWadoRs_multipart args w w1 w2 cache Hformat Hc Hf). fold study pathname.
  rewrite multipart_response_events.
  - f_equal. destruct (fst _); [reflexivity|].
    unfold events. rewrite filter_cons_True; [reflexivity|].
    cbn. apply String.eqb_refl.
  - reflexivity.
  - reflexivity.
  - reflexivity.
Qed.

(** Property X12.  In a directory scope the parts come from a listing of
    the target path, made after the fetch step.  If the target path is a
    file at that point - an instance the fetch has just stored under the
    path asked for - the request fails with [ENOTDIR]; if it is still
    missing, with [ENOENT].  No object is transformed; the failure is
    logged. *)
Theorem listing_failure (args : WadoRsArgs) (w w1 w2 : World) (cache : CacheCheck) :
  let study := studyInstanceUid args in
  let pathname := pathname_of env study (sopInstanceUid args) in
  dataFormat args ≠ Some thumbnail →
  checkCache env study (seriesInstanceUid args) (sopInstanceUid args)
    (studyPath_of env study) pathname w = (Ok cache, w1) →
  isDir cache = true →
  ensureFetched env (useCache cache) pathname study (seriesInstanceUid args)
    (sopInstanceUid args) (queryLevel_of (seriesInstanceUid args)) w1 = (Ok tt, w2) →
  (∀ entries, files w2 !! pathname ≠ Some (Directory entries)) →
  doWadoRs env args w =
    (Throw (SystemError (match files w2 !! pathname with
                         | Some _ => "ENOTDIR"
                         | None => "ENOENT"
                         end) pathname),
     {| files := files w2;
        trace := trace w2 ++ [LogError ["failed to process " +:+ pathname]] |}).
Proof.
  intros study pathname Hformat Hc Hdir Hf Hnodir.
  rewrite (doWadoRs_multipart args w w1 w2 cache Hformat Hc Hf). fold study pathname.
  unfold multipart_response, settle_then. cbv zeta. rewrite Hdir. unfold fs_readdir.
  destruct (files w2 !! pathname) as [[content|entries]|] eqn:Hp.
  - cbv beta iota delta [bind logger_error emit throw]. reflexivity.
  - exfalso. exact (Hnodir entries eq_refl).
  - cbv beta iota delta [bind logger_error emit throw]. reflexivity.
Qed.

(** *** A directory without an expected instance *)

Lemma expected_instances_none (json : list (gmap string QidoAttribute)) :
  Forall (fun instance : gmap string QidoAttribute => instance !! "00080018" = None) json →
  expected_instances json = [] ∧
  Forall (fun instance => carries_value instance = true) json.
Proof.
  induction 1 as [|instance json Hi _ [IHe IHc]]; [split; constructor|].
  split.
  - unfold expected_instances in *. cbn [omap list_omap]. rewrite Hi. cbn. exact IHe.
  - constructor; [|exact IHc]. unfold carries_value. rewrite Hi. reflexivity.
Qed.

(** Property X13.  When the target path is a directory and no result of the
    metadata query carries a SOPInstanceUID (in particular when the query
    has no result), a request that is not for a thumbnail is answered from
    the cache with an empty multipart body: the closing line [--b--] CRLF
    alone, whatever the directory holds.  Nothing is fetched and no entry
    is read or transformed. *)
Theorem nothing_expected_empty_body (args : WadoRsArgs) (w : World)
    (entries : list string) (json : list (gmap string QidoAttribute)) :
  let study := studyInstanceUid args in
  let pathname := pathname_of env study (sopInstanceUid args) in
  dataFormat args ≠ Some thumbnail →
  files w !! pathname = Some (Directory entries) →
  metadata_query env IMAGE study (or_empty (seriesInstanceUid args))
    (or_empty (sopInstanceUid args)) = Ok json →
  Forall (fun instance : gmap string QidoAttribute => instance !! "00080018" = None) json →
  doWadoRs env args w =
    (Ok {| contentType := "multipart/related;type='" +:+ multipart_type (dataFormat args)
                            +:+ "';boundary=" +:+ study;
           buffer := Buffer_from ("--" +:+ study +:+ "--" +:+ term) |},
     {| files := files w;
        trace := trace w ++ [Find IMAGE study (or_empty (seriesInstanceUid args))
                                  (or_empty (sopInstanceUid args))] |}).
Proof.
  intros study pathname Hformat Hdir Hq Hnone.
  destruct (expected_instances_none json Hnone) as [Hexp Hcarry].
  pose proof (checkCache_directory env study (seriesInstanceUid args) (sopInstanceUid args)
                (studyPath_of env study) pathname w json
                (or_intror (ex_intro _ entries Hdir)) Hq Hcarry) as Hc.
  rewrite Hexp in Hc. cbn [map foldr] in Hc.
  rewrite (doWadoRs_multipart args w _ _ _ Hformat Hc (ensureFetched_hit env _ _ _ _ _ _)).
  fold study pathname.
  unfold multipart_response, settle_then. cbv zeta. cbn [isDir foundInstances].
  unfold fs_readdir. cbn [files]. rewrite Hdir.
  rewrite (await_all_pure _ _ (map (fun _ => None) entries)).
  2: { apply Forall2_fmap, Forall_Forall2_diag, Forall_forall. intros file _ w'.
       reflexivity. }
  unfold ret. f_equal.
  pose proof (assemble_buffer study (dataFormat args) (map (fun _ => None) entries)) as Hb.
  assert (omap id (map (fun _ : string => @None Buffer) entries) = []) as Hempty.
  { clear. induction entries as [|file entries IH]; [reflexivity|exact IH]. }
  rewrite Hempty in Hb. cbn [map concat app] in Hb. unfold closing in Hb.
  destruct (assemble study (dataFormat args) (map (fun _ => None) entries)) as [ct b] eqn:Ha.
  cbn [buffer] in Hb. subst b.
  apply (f_equal contentType) in Ha. cbn [assemble contentType] in Ha. subst ct.
  reflexivity.
Qed.

(** *** What a request never does *)

(** Property X14.  The converter is run for the formats [rendered] and
    [thumbnail] only: a request without a data format or with [pixelData]
    or [bulkData] never runs it, whatever its outcome. *)
Theorem converter_only_for_images (args : WadoRsArgs) (w : World) :
  dataFormat args ≠ Some rendered →
  dataFormat args ≠ Some thumbnail →
  events is_Exec (trace (snd (doWadoRs env args w))) = events is_Exec (trace w).
Proof.
  intros Hrendered Hthumbnail.
  pose proof (silent_checkCache env is_Exec (studyInstanceUid args) (seriesInstanceUid args)
                (sopInstanceUid args) (studyPath_of env (studyInstanceUid args))
                (pathname_of env (studyInstanceUid args) (sopInstanceUid args))
                (fun _ _ _ _ => eq_refl) w) as Hcheck.
  destruct (checkCache env (studyInstanceUid args) (seriesInstanceUid args)
              (sopInstanceUid args) (studyPath_of env (studyInstanceUid args))
              (pathname_of env (studyInstanceUid args) (sopInstanceUid args)) w)
    as [[cache|e] w1] eqn:Hc; cbn [snd] in Hcheck.
  2: { rewrite (doWadoRs_check_fails args w w1 e Hc). exact Hcheck. }
  rewrite (doWadoRs_unfold env args w w1 cache Hc).
  pose proof (silent_ensureFetched env is_Exec (useCache cache)
                (pathname_of env (studyInstanceUid args) (sopInstanceUid args))
                (studyInstanceUid args) (seriesInstanceUid args) (sopInstanceUid args)
                (queryLevel_of (seriesInstanceUid args))
                (fun _ => eq_refl) (fun _ _ _ _ => eq_refl) w1) as Hf.
  destruct (ensureFetched _ _ _ _ _ _ _ w1) as [[[]|e] w2]; cbn [snd] in Hf |- *;
    [|congruence].
  rewrite <- Hcheck, <- Hf.
  assert (silent is_Exec
            (multipart_response env cache (studyInstanceUid args)
               (studyPath_of env (studyInstanceUid args))
               (pathname_of env (studyInstanceUid args) (sopInstanceUid args))
               (filename_of (sopInstanceUid args)) (dataFormat args))) as Hm.
  { intros w'. rewrite multipart_response_events.
    - destruct (fst _); apply app_nil_r.
    - reflexivity.
    - reflexivity.
    - intros Hr. destruct (Hrendered Hr). }
  destruct (dataFormat args) as [[]|]; try congruence; apply Hm.
Qed.

(** Property X15.  In every outcome a request makes at most one fetch call,
    and none when the cache check itself fails.  The call has the level
    SERIES when a series UID that is not empty was given and the level
    STUDY otherwise: never the level IMAGE, also when an instance UID was
    given. *)
Theorem at_most_one_fetch (args : WadoRsArgs) (w : World) :
  let study := studyInstanceUid args in
  let check :=
    checkCache env study (seriesInstanceUid args) (sopInstanceUid args)
      (studyPath_of env study) (pathname_of env study (sopInstanceUid args)) w in
  ∃ calls,
    events is_Fetch (trace (snd (doWadoRs env args w))) = events is_Fetch (trace w) ++ calls
    ∧ (calls = [] ∨
       ∃ level,
         calls = [Fetch study (or_empty (seriesInstanceUid args))
                        (or_empty (sopInstanceUid args)) level]
         ∧ level ≠ IMAGE
         ∧ (level = SERIES ↔ ∃ c series, seriesInstanceUid args = Some (String c series)))
    ∧ (∀ e, fst check = Throw e → calls = []).
Proof.
  intros study check.
  pose proof (silent_checkCache env is_Fetch study (seriesInstanceUid args)
                (sopInstanceUid args) (studyPath_of env study)
                (pathname_of env study (sopInstanceUid args))
                (fun _ _ _ _ => eq_refl) w) as Hcheck.
  subst check.
  destruct (checkCache env study (seriesInstanceUid args) (sopInstanceUid args)
              (studyPath_of env study) (pathname_of env study (sopInstanceUid args)) w)
    as [[cache|e] w1] eqn:Hc; cbn [snd] in Hcheck.
  2: { exists []. rewrite (doWadoRs_check_fails args w w1 e Hc). cbn [snd].
       rewrite app_nil_r. auto. }
  exists (if useCache cache then []
          else [Fetch study (or_empty (seriesInstanceUid args))
                  (or_empty (sopInstanceUid args)) (queryLevel_of (seriesInstanceUid args))]).
  split; [|split].
  - rewrite (doWadoRs_unfold env args w w1 cache Hc). fold study.
    pose proof (ensureFetched_events env is_Fetch (useCache cache)
                  (pathname_of env study (sopInstanceUid args)) study
                  (seriesInstanceUid args) (sopInstanceUid args)
                  (queryLevel_of (seriesInstanceUid args)) w1 (fun _ => eq_refl)) as Hf.
    rewrite Hcheck in Hf.
    assert (events is_Fetch [Fetch study (or_empty (seriesInstanceUid args))
                               (or_empty (sopInstanceUid args))
                               (queryLevel_of (seriesInstanceUid args))]
            = [Fetch study (or_empty (seriesInstanceUid args))
                 (or_empty (sopInstanceUid args))
                 (queryLevel_of (seriesInstanceUid args))]) as Hone by reflexivity.
    rewrite Hone in Hf.
    destruct (ensureFetched _ _ _ _ _ _ _ w1) as [[[]|e] w2]; cbn [snd] in Hf |- *;
      [|exact Hf].
    rewrite <- Hf.
    destruct (dataFormat args) as [[]|].
    4: apply silent_thumbnail_response; reflexivity.
    all: apply silent_multipart_response; reflexivity.
  - destruct (useCache cache); [left; reflexivity|]. right.
    exists (queryLevel_of (seriesInstanceUid args)). split; [reflexivity|].
    unfold queryLevel_of, truthy.
    destruct (seriesInstanceUid args) as [[|c series]|].
    + split; [discriminate|]. split; [discriminate|]. intros (c & s & [=]).
    + split; [discriminate|]. split; eauto.
    + split; [discriminate|]. split; [discriminate|]. intros (c & s & [=]).
  - cbn [fst]. discriminate.
Qed.

(** *** Which objects a directory request touches *)

(** The transcoder calls of a directory response: the transforms are
    called in the order of the listing, and each one that is for an
    expected instance calls the transcoder before its first [await];
    nothing that happens later calls it. *)
Lemma multipart_response_transcoder_calls (cache : CacheCheck)
    (study studyPath pathname filename : string) (dataFormat : option DataFormat)
    (w : World) (entries : list string) :
  isDir cache = true →
  files w !! pathname = Some (Directory entries) →
  events is_Compress
    (trace (snd (multipart_response env cache study studyPath pathname filename
                   dataFormat w)))
  = events is_Compress (trace w) ++
    map (fun file =>
           Compress (path_join env pathname file) pathname (target_syntax dataFormat))
        (filter (fun file => file ∈ foundInstances cache) entries).
Proof.
  intros Hdir Hentries.
  unfold multipart_response, settle_then. cbv zeta. rewrite Hdir.
  unfold fs_readdir. rewrite Hentries.
  set (adds :=
         map (fun file =>
                if bool_decide (file ∈ foundInstances cache)
                then events is_Compress
                       [Compress (path_join env pathname file) pathname
                          (target_syntax dataFormat)]
                else [])
             entries).
  rewrite (await_all_events is_Compress _ _ adds).
  - f_equal. subst adds. clear. induction entries as [|file entries IH]; [reflexivity|].
    cbn [map concat]. destruct (bool_decide (file ∈ foundInstances cache)) eqn:Hin.
    + apply bool_decide_eq_true in Hin. rewrite filter_cons_True by exact Hin.
      unfold events at 1. rewrite filter_cons_True by reflexivity. rewrite filter_nil.
      cbn [map app]. f_equal. exact IH.
    + apply bool_decide_eq_false in Hin. rewrite filter_cons_False by exact Hin.
      exact IH.
  - subst adds. apply Forall2_fmap, Forall_Forall2_diag, Forall_forall. intros file _.
    unfold transform. destruct (bool_decide (file ∈ foundInstances cache)).
    + unfold addFileToBuffer_async, compressFile_async. cbv zeta.
      fold (target_syntax dataFormat).
      match goal with
      | |- context [abind (abind (atry_catch (abind (now (emit ?e)) ?k1) ?h) ?k2) ?k3] =>
          apply (call_emits_then is_Compress e _
                   (abind (abind (atry_catch (k1 tt) h) k2) k3))
      end.
      * intros w'. reflexivity.
      * cbv beta. unfold logger_error, parseDicom.
        stepping_with ltac:(apply quiet_convertToJpeg_async; reflexivity).
    + intros w'. split; [symmetry; apply app_nil_r|exact I].
  - intros [buffers|error]; [apply silent_ret|].
    unfold logger_error. change (silent is_Compress
      (emit (LogError ["failed to process " +:+ pathname]) ;;; @throw WadoRsResponse error)).
    silence.
Qed.

(** Property X16.  In a directory scope a request that is not for a
    thumbnail hands to the transcoder the objects that are both entries of
    the listing of the target path and expected instances, and no other:
    in every outcome the transcoder calls it adds are one call for each
    such entry, in the order of the listing, each under the target path and
    with the target syntax of the data format; whatever else the directory
    holds is left alone. *)
Theorem only_expected_entries_transformed (args : WadoRsArgs) (w w1 w2 : World)
    (cache : CacheCheck) (entries : list string) :
  let study := studyInstanceUid args in
  let pathname := pathname_of env study (sopInstanceUid args) in
  dataFormat args ≠ Some thumbnail →
  checkCache env study (seriesInstanceUid args) (sopInstanceUid args)
    (studyPath_of env study) pathname w = (Ok cache, w1) →
  isDir cache = true →
  ensureFetched env (useCache cache) pathname study (seriesInstanceUid args)
    (sopInstanceUid args) (queryLevel_of (seriesInstanceUid args)) w1 = (Ok tt, w2) →
  files w2 !! pathname = Some (Directory entries) →
  events is_Compress (trace (snd (doWadoRs env args w))) =
  events is_Compress (trace w2) ++
  map (fun file =>
         Compress (path_join env pathname file) pathname
           (match dataFormat args with
            | Some _ => Some "1.2.840.10008.1.2"
            | None => None
            end))
      (filter (fun file => file ∈ foundInstances cache) entries).
Proof.
  intros study pathname Hformat Hc Hdir Hf Hentries.
  rewrite (doWadoRs_multipart args w w1 w2 cache Hformat Hc Hf). fold study pathname.
  apply multipart_response_transcoder_calls; assumption.
Qed.

(** Property X17.  In a directory scope a request that is answered - and is
    not for a thumbnail - has handed every entry of the listing that is an
    expected instance to the transcoder exactly once: the transcoder calls
    it added are, up to the order the runtime completed the transforms in,
    one call per such entry. *)
Theorem each_expected_entry_transformed_once (args : WadoRsArgs) (w w1 w2 : World)
    (cache : CacheCheck) (entries : list string) (response : WadoRsResponse) :
  let study := studyInstanceUid args in
  let pathname := pathname_of env study (sopInstanceUid args) in
  dataFormat args ≠ Some thumbnail →
  checkCache env study (seriesInstanceUid args) (sopInstanceUid args)
    (studyPath_of env study) pathname w = (Ok cache, w1) →
  isDir cache = true →
  ensureFetched env (useCache cache) pathname study (seriesInstanceUid args)
    (sopInstanceUid args) (queryLevel_of (seriesInstanceUid args)) w1 = (Ok tt, w2) →
  files w2 !! pathname = Some (Directory entries) →
  fst (doWadoRs env args w) = Ok response →
  ∃ calls,
    events is_Compress (trace (snd (doWadoRs env args w))) =
      events is_Compress (trace w2) ++ calls
    ∧ calls ≡ₚ
      map (fun file =>
             Compress (path_join env pathname file) pathname
               (match dataFormat args with
                | Some _ => Some "1.2.840.10008.1.2"
                | None => None
                end))
          (filter (fun file => file ∈ foundInstances cache) entries).
Proof.
  intros study pathname Hformat Hc Hdir Hf Hentries _.
  rewrite (doWadoRs_multipart args w w1 w2 cache Hformat Hc Hf). fold study pathname.
  eexists. split; [|reflexivity].
  apply multipart_response_transcoder_calls; assumption.
Qed.


End Further.

(** ** The further properties at work *)

(** The transcoder rejects; the part is made of the bytes on disk. *)
Lemma addFileToBuffer_default_witness :
  addFileToBuffer Faults.transcoder_down "/data/S1" "I1" None Scenario.w0 =
    (Ok (Buffer_from ("Content-Type:application/dicom;transfer-syntax:1.2.840.10008.1.2.1"
                        +:+ term)
         ++ Buffer_from term ++ [x01; x0a; x0b; x0c] ++ Buffer_from term),
     {| files := Scenario.storage;
        trace := [Compress "/data/S1/I1" "/data/S1" None;
                  LogError ["Failed to compress"; "/data/S1/I1"]] |}).
Proof.
  exact (addFileToBuffer_default Faults.transcoder_down "/data/S1" "I1" Scenario.w0
           [x01; x0a; x0b; x0c] eq_refl).
Defined.

(** An object that is not on disk. *)
Lemma addFileToBuffer_unreadable_witness :
  fst (addFileToBuffer Scenario.env "/data/S1" "I9" (Some rendered) Scenario.w0)
    = Throw (SystemError "ENOENT" "/data/S1/I9")
  ∧ events is_Exec
      (trace (snd (addFileToBuffer Scenario.env "/data/S1" "I9" (Some rendered) Scenario.w0)))
    = [].
Proof.
  exact (addFileToBuffer_unreadable Scenario.env "/data/S1" "I9" (Some rendered)
           Scenario.w0 eq_refl).
Defined.

(** An object without pixel data, asked for as pixel data. *)
Lemma addFileToBuffer_pixelData_faults_witness :
  fst (addFileToBuffer Scenario.env "/data/S1" "tiny" (Some pixelData) Faults.w_tiny)
    = Throw (TypeError "Cannot read properties of undefined (reading 'dataOffset')").
Proof.
  refine (proj1 (proj2
            (addFileToBuffer_pixelData_faults Scenario.env "/data/S1" "tiny" pixelData
               Faults.w_tiny [x01] (or_introl eq_refl) eq_refl))
            {| elements := ∅; byteArray_buffer := [x01] |} eq_refl eq_refl).
Defined.

(** A single-frame object rendered at full quality. *)
Lemma addFileToBuffer_rendered_part_witness :
  fst (addFileToBuffer Scenario.env "/data/S3" "a" (Some rendered) Scenario.w0)
    = Ok (Buffer_from ("Content-Type:image/jpeg;" +:+ term)
          ++ Buffer_from term ++ [xff; xd8; x0a; x0a; x0a] ++ Buffer_from term).
Proof.
  rewrite (proj1 (addFileToBuffer_rendered_part Scenario.env "/data/S3" "a" Scenario.w0
                    [x01; x0a; x0a; x0a] eq_refl)
             [xff; xd8; x0a; x0a; x0a]
             {| files := <[ "/data/S3/a.jpg" := File [xff; xd8; x0a; x0a; x0a] ]>
                           Scenario.storage;
                trace := [Compress "/data/S3/a" "/data/S3" (Some "1.2.840.10008.1.2");
                          Exec "dcmj2pnm" ["+oj"; "+Jq"; "100"; "/data/S3/a";
                                           "/data/S3/a.jpg"]] |}
             eq_refl).
  reflexivity.
Defined.

(** The remote source does not answer the query for study S2. *)
Lemma query_failure_propagates_witness :
  doWadoRs Faults.query_down (Scenario.request "S2" None None) Scenario.w0 =
    (Throw (Rejected "pacs" "unreachable"),
     {| files := Scenario.storage;
        trace := [Find IMAGE "S2" EmptyString EmptyString] |}).
Proof.
  refine (query_failure_propagates Faults.query_down (Scenario.request "S2" None None)
            Scenario.w0 (Rejected "pacs" "unreachable") _ eq_refl).
  right. exists ["I1"]. reflexivity.
Defined.

(** The second result of the query has no value for the SOPInstanceUID. *)
Lemma valueless_result_fails_witness :
  doWadoRs Faults.valueless (Scenario.request "S2" None None) Scenario.w0 =
    (Throw (TypeError "The path argument must be of type string. Received undefined"),
     {| files := Scenario.storage;
        trace := [Find IMAGE "S2" EmptyString EmptyString] |}).
Proof.
  refine (valueless_result_fails Faults.valueless (Scenario.request "S2" None None)
            Scenario.w0
            [Scenario.instance_of "I1"; {[ "00080018" := {| Value := []; vr := "UI" |} ]}]
            _ eq_refl _).
  - right. exists ["I1"]. reflexivity.
  - apply Exists_cons_tl, Exists_cons_hd. reflexivity.
Defined.

(** Instance I2 of study S2 is missing and the retrieve does not get
    through. *)
Lemma fetch_failure_propagates_witness :
  doWadoRs Faults.fetch_down (Scenario.request "S2" None None) Scenario.w0 =
    (Throw (Rejected "fetch" "timed out"),
     {| files := Scenario.storage;
        trace := [Find IMAGE "S2" EmptyString EmptyString;
                  LogInfo "fetching /data/S2";
                  Fetch "S2" EmptyString EmptyString STUDY] |}).
Proof.
  exact (fetch_failure_propagates Faults.fetch_down (Scenario.request "S2" None None)
           Scenario.w0
           {| files := Scenario.storage;
              trace := [Find IMAGE "S2" EmptyString EmptyString] |}
           {| isDir := true; useCache := false; foundInstances := ["I1"; "I2"] |}
           (Rejected "fetch" "timed out") Scenario.storage eq_refl eq_refl eq_refl).
Defined.

(** Instance I1 of study S1, on disk, as pixel data. *)
Lemma single_object_response_witness :
  fst (doWadoRs Scenario.env (Scenario.request "S1" (Some "I1") (Some pixelData)) Scenario.w0)
  = Ok {| contentType := "multipart/related;type='application/octet-stream';boundary=S1";
          buffer := Buffer_from ("--S1" +:+ term)
                    ++ (Buffer_from ("Content-Type:application/octet-stream;" +:+ term)
                        ++ Buffer_from term ++ [x0a; x0b] ++ Buffer_from term)
                    ++ Buffer_from ("--S1--" +:+ term) |}.
Proof.
  rewrite (single_object_response Scenario.env
             (Scenario.request "S1" (Some "I1") (Some pixelData)) Scenario.w0
             [x01; x0a; x0b; x0c] ltac:(discriminate) eq_refl).
  vm_compute. reflexivity.
Defined.

(** Study S3 rendered: the object c renders to nothing and its transform is
    the first to settle.  The request fails and logs the failure once; the
    transforms of a and b, which are pending then, run their converters
    after it. *)
Lemma multipart_failure_is_logged_witness :
  trace (snd (doWadoRs Scenario.env (Scenario.request "S3" None (Some rendered))
                Scenario.w0))
  = [Find IMAGE "S3" EmptyString EmptyString;
     Compress "/data/S3/a" "/data/S3" (Some "1.2.840.10008.1.2");
     Compress "/data/S3/b" "/data/S3" (Some "1.2.840.10008.1.2");
     Compress "/data/S3/c" "/data/S3" (Some "1.2.840.10008.1.2");
     Exec "dcmj2pnm" ["+oj"; "+Jq"; "100"; "/data/S3/c"; "/data/S3/c.jpg"];
     LogError ["failed to process /data/S3"];
     Exec "dcmj2pnm" ["+oj"; "+Jq"; "100"; "/data/S3/a"; "/data/S3/a.jpg"];
     Exec "dcmj2pnm" ["+oj"; "+Jq"; "100"; "/data/S3/b"; "/data/S3/b.jpg"];
     Exec "dcmj2pnm" ["+oj"; "+Jq"; "100"; "+Fa"; "/data/S3/b"; "/data/S3/b"]]
  ∧ events (is_failure_report "/data/S3")
      (trace (snd (doWadoRs Scenario.env (Scenario.request "S3" None (Some rendered))
                     Scenario.w0)))
    = [LogError ["failed to process /data/S3"]].
Proof.
  split; [vm_compute; reflexivity|].
  refine (eq_trans
            (multipart_failure_is_logged Scenario.env
               (Scenario.request "S3" None (Some rendered)) Scenario.w0
               {| files := Scenario.storage;
                  trace := [Find IMAGE "S3" EmptyString EmptyString] |}
               {| files := Scenario.storage;
                  trace := [Find IMAGE "S3" EmptyString EmptyString] |}
               {| isDir := true; useCache := true; foundInstances := ["a"; "b"; "c"] |}
               ltac:(discriminate) eq_refl eq_refl) _).
  vm_compute. reflexivity.
Defined.

(** Instance I2 of study S2 is asked for and not on disk: the fetch stores
    it as a file under the target path, and the listing of that path
    fails. *)
Lemma listing_failure_witness :
  fst (doWadoRs Scenario.env (Scenario.request "S2" (Some "I2") None) Scenario.w0)
  = Throw (SystemError "ENOTDIR" "/data/S2/I2").
Proof.
  rewrite (listing_failure Scenario.env (Scenario.request "S2" (Some "I2") None) Scenario.w0
             {| files := Scenario.storage; trace := [Find IMAGE "S2" EmptyString "I2"] |}
             {| files := <[ "/data/S2/I2" := File [x02; x0d] ]>
                           (<[ "/data/S2" := Directory ["I1"; "I2"] ]> Scenario.storage);
                trace := [Find IMAGE "S2" EmptyString "I2";
                          LogInfo "fetching /data/S2/I2";
                          Fetch "S2" EmptyString "I2" STUDY] |}
             {| isDir := true; useCache := false; foundInstances := ["I1"; "I2"] |}
             ltac:(discriminate) eq_refl eq_refl eq_refl ltac:(discriminate)).
  reflexivity.
Defined.

(** The remote source has no instance of study S1, whose directory holds
    I1: the body is empty. *)
Lemma nothing_expected_empty_body_witness :
  doWadoRs Scenario.env (Scenario.request "S1" None None) Scenario.w0 =
    (Ok {| contentType := "multipart/related;type='application/dicom';boundary=S1";
           buffer := Buffer_from ("--S1--" +:+ term) |},
     {| files := Scenario.storage;
        trace := [Find IMAGE "S1" EmptyString EmptyString] |}).
Proof.
  exact (nothing_expected_empty_body Scenario.env (Scenario.request "S1" None None)
           Scenario.w0 ["I1"] [] ltac:(discriminate) eq_refl eq_refl ltac:(constructor)).
Defined.

(** Study S2 as pixel data, with a fetch: no converter run. *)
Lemma converter_only_for_images_witness :
  events is_Exec
    (trace (snd (doWadoRs Scenario.env (Scenario.request "S2" None (Some pixelData))
                   Scenario.w0)))
  = [].
Proof.
  exact (converter_only_for_images Scenario.env (Scenario.request "S2" None (Some pixelData))
           Scenario.w0 ltac:(discriminate) ltac:(discriminate)).
Defined.

(** Study S3 rendered, a request that fails: the transcoder has been
    called for a, b and c, in the order of the listing. *)
Lemma only_expected_entries_transformed_witness :
  fst (doWadoRs Scenario.env (Scenario.request "S3" None (Some rendered)) Scenario.w0)
  = Throw (TypeError "list argument must be an instance of Buffer or Uint8Array")
  ∧ events is_Compress
      (trace (snd (doWadoRs Scenario.env (Scenario.request "S3" None (Some rendered))
                     Scenario.w0)))
    = [Compress "/data/S3/a" "/data/S3" (Some "1.2.840.10008.1.2");
       Compress "/data/S3/b" "/data/S3" (Some "1.2.840.10008.1.2");
       Compress "/data/S3/c" "/data/S3" (Some "1.2.840.10008.1.2")].
Proof.
  split; [vm_compute; reflexivity|].
  exact (only_expected_entries_transformed Scenario.env
           (Scenario.request "S3" None (Some rendered)) Scenario.w0
           {| files := Scenario.storage; trace := [Find IMAGE "S3" EmptyString EmptyString] |}
           {| files := Scenario.storage; trace := [Find IMAGE "S3" EmptyString EmptyString] |}
           {| isDir := true; useCache := true; foundInstances := ["a"; "b"; "c"] |}
           ["a"; "b"; "c"] ltac:(discriminate) eq_refl eq_refl eq_refl eq_refl).
Defined.

Lemma each_expected_entry_transformed_once_witness :
  ∃ calls,
    events is_Compress
      (trace (snd (doWadoRs Scenario.env (Scenario.request "S3" None None) Scenario.w0)))
      = calls
    ∧ calls ≡ₚ [Compress "/data/S3/a" "/data/S3" None;
                Compress "/data/S3/b" "/data/S3" None;
                Compress "/data/S3/c" "/data/S3" None].
Proof.
  destruct (each_expected_entry_transformed_once Scenario.env
              (Scenario.request "S3" None None) Scenario.w0
              {| files := Scenario.storage;
                 trace := [Find IMAGE "S3" EmptyString EmptyString] |}
              {| files := Scenario.storage;
                 trace := [Find IMAGE "S3" EmptyString EmptyString] |}
              {| isDir := true; useCache := true; foundInstances := ["a"; "b"; "c"] |}
              ["a"; "b"; "c"] _ ltac:(discriminate) eq_refl eq_refl eq_refl eq_refl
              ltac:(vm_compute; reflexivity))
    as (calls & Hcalls & Hperm).
  exists calls. split; [exact Hcalls | exact Hperm].
Defined.
